(** * createFileMap: from MDX code blocks to a Sandpack file map

    A shallow embedding of [createFileMap] (SandpackEditor/createFileMap,
    listed in the post "Live Code Previews in Docusaurus") and the
    properties of it that the specification states.

    The function folds the children of a [<SandpackEditor>] element into
    an object keyed by file path.  JavaScript values are modelled by the
    shapes the function inspects, exceptions by an error-carrying result,
    the object under construction by a finite map. *)

From stdpp Require Import gmap strings list fin_maps.
From Stdlib Require Import Ascii.

(** ** Strings *)

(** [s.split(sep)] for a one-character separator: the string is cut at
    every occurrence of [sep]; empty pieces are kept, and a string with
    no separator (the empty string included) is the only piece.  A
    [string] is a sequence of bytes; the separator used below, the space
    U+0020, is one byte in UTF-8 and occurs in no other encoded
    character, so cutting bytes and cutting UTF-16 units agree. *)
Fixpoint split (sep : ascii) (s : string) : list string :=
  match s with
  | EmptyString => [EmptyString]
  | String c rest =>
      if decide (c = sep) then EmptyString :: split sep rest
      else match split sep rest with
           | piece :: pieces => String c piece :: pieces
           | [] => [String c EmptyString]
           end
  end.

(** [xs.includes(x)] on an array of strings. *)
Fixpoint includes (xs : list string) (x : string) : bool :=
  match xs with
  | [] => false
  | y :: ys => if decide (y = x) then true else includes ys x
  end.

(** Truthiness of a property that is a string or [undefined]: only a
    non-empty string is truthy. *)
Definition truthy (v : option string) : bool :=
  match v with
  | Some (String _ _) => true
  | Some EmptyString | None => false
  end.

(** ** Values *)

(** [SandpackFile], as far as the function fills it in. *)
Record SandpackFile := {
  code : string;
  hidden : bool;
  active : bool
}.

(** The props of the [<code>] element that MDX nests in a [<pre>]: the
    class derived from the fence's language, the rest of the fence's info
    line, and the text of the block. *)
Record CodeProps := {
  className : option string;
  metastring : option string;
  children : string
}.

(** What [codeSnippet.props.children] can be: nothing, a bare string, or
    one element with its props. *)
Inductive Nested :=
| Nothing
| Chars (s : string)
| Code (props : CodeProps).

(** An entry of [React.Children.toArray(children)]: a text node (a
    string, which has no [props]) or an element, of which the function
    reads [props.mdxType] and [props.children]. *)
Inductive Child :=
| Text (s : string)
| Element (mdxType : option string) (nested : Nested).

(** ** Exceptions *)

Inductive Error :=
| MissingFilename (block : string)
| DuplicatePath (filePath : string)
| TypeError.

(** The message of the exception: the two template literals of the
    source; a [TypeError] comes from the engine, which words it. *)
Definition message (e : Error) : option string :=
  match e with
  | MissingFilename block =>
      Some ("Code block is missing a filename: " +:+ block)
  | DuplicatePath filePath =>
      Some ("File " +:+ filePath +:+
            " was defined multiple times. Each file snippet should have a unique path name")
  | TypeError => None
  end.

Inductive Completion (A : Type) :=
| Return (a : A)
| Throw (e : Error).
Arguments Return {A} a.
Arguments Throw {A} e.

(** Sequencing: an exception skips the rest ([x ← c; k] below). *)
#[global] Instance Completion_bind : MBind Completion := λ A B k c,
  match c with
  | Return a => k a
  | Throw e => Throw e
  end.

(** [xs.reduce(f, init)] with a callback that may throw: the first
    exception ends the loop. *)
Fixpoint reduce {A B} (f : B → A → Completion B) (xs : list A) (acc : B)
  : Completion B :=
  match xs with
  | [] => Return acc
  | x :: rest => acc' ← f acc x ; reduce f rest acc'
  end.

(** ** The function *)

(** [codeSnippet.props]: reading a property of [undefined] throws. *)
Definition props_of (codeSnippet : Child) : Completion (option string * Nested) :=
  match codeSnippet with
  | Text _ => Throw TypeError
  | Element mdxType nested => Return (mdxType, nested)
  end.

(** [const { props } = codeSnippet.props.children] followed by the first
    read of a property of [props]: destructuring [undefined] throws, and
    a string has no [props]. *)
Definition nested_props (nested : Nested) : Completion CodeProps :=
  match nested with
  | Nothing | Chars _ => Throw TypeError
  | Code props => Return props
  end.

(** The three locals the callback computes for a block. *)
Record Placement := {
  filePath : string;
  fileHidden : bool;
  fileActive : bool
}.

(** The branch taken when [props.metastring] is truthy:
    [const [name, ...params] = props.metastring.split(" ")] and the two
    [includes] tests.  ([split] never returns an empty array; were
    [name] undefined, ["/" + name] would read "/undefined".) *)
Definition named (meta : string) : Placement :=
  let tokens := split " " meta in
  let name := hd "undefined" tokens in
  let params := tl tokens in
  {| filePath := "/" +:+ name;
     fileHidden := if includes params "hidden" then true else false;
     fileActive := if includes params "active" then true else false |}.

(** The [else] branch: the chain of comparisons of [props.className]. *)
Definition by_language (props : CodeProps) : Completion Placement :=
  if decide (className props = Some "language-js") then
    Return {| filePath := "/App.js"; fileHidden := false; fileActive := false |}
  else if decide (className props = Some "language-ts") then
    Return {| filePath := "/App.tsx"; fileHidden := false; fileActive := false |}
  else if decide (className props = Some "language-tsx") then
    Return {| filePath := "/App.tsx"; fileHidden := false; fileActive := false |}
  else if decide (className props = Some "language-css") then
    Return {| filePath := "/styles.css"; fileHidden := false; fileActive := false |}
  else Throw (MissingFilename (children props)).

(** The [if (props.metastring) ... else ...] statement. *)
Definition place (props : CodeProps) : Completion Placement :=
  if truthy (metastring props)
  then Return (named (default "" (metastring props)))
  else by_language props.

(** The object literal stored at [result[filePath]]. *)
Definition file_of (props : CodeProps) (p : Placement) : SandpackFile :=
  {| code := children props; hidden := fileHidden p; active := fileActive p |}.

(** The callback given to [reduce].  [result[filePath]] is truthy
    exactly when the key is there: every value stored is an object, and
    a key that starts with "/" is no property of [Object.prototype]. *)
Definition callback (result : gmap string SandpackFile) (codeSnippet : Child)
  : Completion (gmap string SandpackFile) :=
  '(mdxType, nested) ← props_of codeSnippet ;
  if decide (mdxType ≠ Some "pre") then Return result else
  props ← nested_props nested ;
  p ← place props ;
  if decide (is_Some (result !! filePath p))
  then Throw (DuplicatePath (filePath p))
  else Return (<[filePath p := file_of props p]> result).

(** [createFileMap], applied to the array that
    [React.Children.toArray(children)] yields; the accumulator starts as
    the empty object. *)
Definition createFileMap (codeSnippets : list Child)
  : Completion (gmap string SandpackFile) :=
  reduce callback codeSnippets ∅.

(** ** The same function with its object in a store

    [reduce] hands the callback the very object it returned the step
    before, and the callback writes into it.  Here the object lives in a
    store and is named by its location, so that what a call does to
    objects that exist already can be stated. *)
Module Heap.

Abbreviation Store := (gmap positive (gmap string SandpackFile)).

Definition Run (A : Type) : Type := Store → Completion A * Store.

Definition ret {A} (a : A) : Run A := λ σ, (Return a, σ).

Definition throw {A} (e : Error) : Run A := λ σ, (Throw e, σ).

Definition lift {A} (c : Completion A) : Run A := λ σ, (c, σ).

Definition bind {A B} (c : Run A) (k : A → Run B) : Run B := λ σ,
  match c σ with
  | (Return a, σ') => k a σ'
  | (Throw e, σ') => (Throw e, σ')
  end.

(** The object literal [{}]: a new object at an unused location. *)
Definition new_object : Run positive := λ σ,
  let l := fresh (dom σ) in (Return l, <[l := ∅]> σ).

(** [result[key]] *)
Definition read (result : positive) (key : string) : Run (option SandpackFile) :=
  λ σ, (Return (σ !! result ≫= λ object, object !! key), σ).

(** [result[key] = file] *)
Definition write (result : positive) (key : string) (file : SandpackFile)
  : Run unit :=
  λ σ, (Return (), alter (λ object, <[key := file]> object) result σ).

Definition callback (result : positive) (codeSnippet : Child) : Run positive :=
  bind (lift (props_of codeSnippet)) (λ '(mdxType, nested),
  if decide (mdxType ≠ Some "pre") then ret result else
  bind (lift (nested_props nested)) (λ props,
  bind (lift (place props)) (λ p,
  bind (read result (filePath p)) (λ present,
  if decide (is_Some present) then throw (DuplicatePath (filePath p)) else
  bind (write result (filePath p) (file_of props p)) (λ _,
  ret result))))).

Fixpoint reduce {A B} (f : B → A → Run B) (xs : list A) (acc : B) : Run B :=
  match xs with
  | [] => ret acc
  | x :: rest => bind (f acc x) (reduce f rest)
  end.

Definition createFileMap (codeSnippets : list Child) : Run positive :=
  bind new_object (reduce callback codeSnippets).

(** [yields out r]: the call that ended as [out] (its completion and the
    store it left) gave the caller [r]: the same exception, or a
    location at which the store holds the mapping of [r]. *)
Definition yields (out : Completion positive * Store)
    (r : Completion (gmap string SandpackFile)) : Prop :=
  match out.1, r with
  | Return l, Return m => out.2 !! l = Some m
  | Throw e, Throw e' => e = e'
  | _, _ => False
  end.

End Heap.

(** ** Vocabulary of the statements *)

(** [xs.join(sep)], the inverse of [split]. *)
Fixpoint join (sep : ascii) (pieces : list string) : string :=
  match pieces with
  | [] => ""
  | [piece] => piece
  | piece :: rest => piece +:+ String sep (join sep rest)
  end.

(** [sep] does not occur in [s]. *)
Fixpoint free_of (sep : ascii) (s : string) : Prop :=
  match s with
  | EmptyString => True
  | String c rest => c ≠ sep ∧ free_of sep rest
  end.

(** The two tokens the function looks for after the name. *)
Definition is_flag (token : string) : bool :=
  bool_decide (token = "hidden") || bool_decide (token = "active").

(** A code block as MDX renders it: a [pre] wrapper around the [code]
    element. *)
Definition block (props : CodeProps) : Child :=
  Element (Some "pre") (Code props).

Definition is_pre (c : Child) : bool :=
  match c with
  | Element mdxType _ => bool_decide (mdxType = Some "pre")
  | Text _ => false
  end.

(** A child the cast to [React.ReactElement[]] and the shape MDX gives a
    code block allow: an element, and if tagged [pre], one that wraps an
    element. *)
Definition well_shaped (c : Child) : Prop :=
  match c with
  | Text _ => False
  | Element mdxType nested =>
      mdxType = Some "pre" → ∃ props, nested = Code props
  end.

(** An element that is not tagged [pre]. *)
Definition unrelated (c : Child) : Prop :=
  match c with
  | Text _ => False
  | Element mdxType _ => mdxType ≠ Some "pre"
  end.

(** [with_extras P xs ys]: [ys] is [xs] with children that satisfy [P]
    put in at any positions. *)
Inductive with_extras (P : Child → Prop) : list Child → list Child → Prop :=
| extras_done : with_extras P [] []
| extras_same c xs ys : with_extras P xs ys → with_extras P (c :: xs) (c :: ys)
| extras_more c xs ys : P c → with_extras P xs ys → with_extras P xs (c :: ys).

(** The path of a block whose metadata line names the file. *)
Definition named_path (props : CodeProps) : string :=
  filePath (named (default "" (metastring props))).

(** The path a child resolves to, if it is a code block that resolves to
    one. *)
Definition path_of (c : Child) : option string :=
  match c with
  | Element mdxType (Code props) =>
      if decide (mdxType = Some "pre") then
        match place props with
        | Return p => Some (filePath p)
        | Throw _ => None
        end
      else None
  | _ => None
  end.

(** ** The specification's reading of the metadata line

    The specification has the line split "on whitespace".  This is that
    reading, to be compared with [named]: the line is cut at every
    whitespace character. *)
Module Spec.

(** TAB, LF, VT, FF, CR and the space. *)
Definition whitespace (c : ascii) : bool :=
  let n := nat_of_ascii c in
  (((9 <=? n) && (n <=? 13)) || (n =? 32))%nat.

Fixpoint tokens (s : string) : list string :=
  match s with
  | EmptyString => [EmptyString]
  | String c rest =>
      if whitespace c then EmptyString :: tokens rest
      else match tokens rest with
           | piece :: pieces => String c piece :: pieces
           | [] => [String c EmptyString]
           end
  end.

Definition named (meta : string) : Placement :=
  {| filePath := "/" +:+ hd "" (tokens meta);
     fileHidden := bool_decide ("hidden" ∈ tl (tokens meta));
     fileActive := bool_decide ("active" ∈ tl (tokens meta)) |}.

(** The lookup from language tag to path; MDX gives the fence's language
    [tag] to the [code] element as the class ["language-" +:+ tag]. *)
Definition language_paths : list (string * string) :=
  [("js", "/App.js"); ("ts", "/App.tsx"); ("tsx", "/App.tsx");
   ("css", "/styles.css")].

End Spec.

(** A metadata line whose two tokens are separated by a TAB. *)
Definition tabbed : string := "App.tsx" +:+ String "009" "active".

(** ** Blocks of the post, for examples *)

Definition Index_tsx : CodeProps :=
  {| className := Some "language-tsx";
     metastring := Some "Index.tsx active";
     children := "import App from './App'; export default () => <App />;" |}.

Definition App_tsx : CodeProps :=
  {| className := Some "language-tsx";
     metastring := Some "App.tsx";
     children := "const App = () => <div>I'm the App component</div>; export default App;" |}.

(** A fence with a language and nothing else on its info line. *)
Definition hello_world : CodeProps :=
  {| className := Some "language-tsx";
     metastring := None;
     children := "export default () => <h1>Hello World</h1>;" |}.

(** A paragraph between two fences. *)
Definition paragraph : Child := Element (Some "p") (Chars "renders as:").

(** ** What a child contributes *)

(** The entry a child adds to the mapping, if it is a code block that
    resolves: its path and the file stored there. *)
Definition entry_of (c : Child) : option (string * SandpackFile) :=
  match c with
  | Element mdxType (Code props) =>
      if decide (mdxType = Some "pre") then
        match place props with
        | Return p => Some (filePath p, file_of props p)
        | Throw _ => None
        end
      else None
  | _ => None
  end.

(** A child that a step takes without throwing, whatever the mapping so
    far holds: an element that is skipped, or a block that resolves. *)
Definition accepted (c : Child) : Prop :=
  unrelated c ∨ ∃ props p, c = block props ∧ place props = Return p.

(** A code block without a metadata line. *)
Definition unnamed (c : Child) : bool :=
  match c with
  | Element mdxType (Code props) =>
      bool_decide (mdxType = Some "pre") && negb (truthy (metastring props))
  | _ => false
  end.

(** ** The component (SandpackEditor.tsx)

    [SandpackEditor] hands [createFileMap(children)] to [<Sandpack>];
    the result modelled is the props of that element.  The children are
    given as the array [React.Children.toArray] makes of them;
    [dependencies] is [None] when the prop is left out, and the default
    parameter then makes it the empty object.  SandpackSnippet.tsx has
    the same body, with the call of [toArray] written out. *)
Record SandpackProps := {
  template : string;
  files : gmap string SandpackFile;
  options_showNavigator : bool;
  customSetup_dependencies : gmap string string
}.

Definition SandpackEditor (children : list Child)
    (dependencies : option (gmap string string)) : Completion SandpackProps :=
  let dependencies := default ∅ dependencies in
  files ← createFileMap children ;
  Return {| template := "react-ts";
            files := files;
            options_showNavigator := true;
            customSetup_dependencies := dependencies |}.

(** ** The component mapping (theme/MDXComponents.js)

    [{ ...MDXComponents, SandpackSnippet: SandpackSnippet }]: the
    entries of the original mapping, then the key ["SandpackSnippet"],
    which replaces an entry of that name. *)
Section MDXComponents.
Context {Component : Type}.
Context (MDXComponents : gmap string Component) (SandpackSnippet : Component).

Definition theme_MDXComponents : gmap string Component :=
  <["SandpackSnippet" := SandpackSnippet]> MDXComponents.

End MDXComponents.

(** ** The hooks of the post on tabs and nested routes

    [matchPath] and [useMatch] are react-router's; they are parameters
    here.  Of a match the code reads [possibleMatch.pattern.path] only,
    and of a hook's result whether it is [null]. *)
Module Router.

Record PathPattern := { path : string }.

Record PathMatch := { pattern : PathPattern }.

Section hooks.
Context (matchPath : string → string → option PathMatch).
Context (useMatch : string → option PathMatch).

(** [useRouteMatch(patterns)]: the [for] loop over [patterns], left at
    the first match; [pathname] is [useLocation().pathname]. *)
Fixpoint useRouteMatch (patterns : list string) (pathname : string) : string :=
  match patterns with
  | [] => "tab1"
  | pattern :: rest =>
      match matchPath pattern pathname with
      | Some possibleMatch => path (Router.pattern possibleMatch)
      | None => useRouteMatch rest pathname
      end
  end.

(** [useSelectedTab()]: three calls of [useMatch], then the chain of
    tests. *)
Definition useSelectedTab : string :=
  let isTab1 := useMatch "/tab1" in
  let isTab2 := useMatch "/tab2" in
  let isTab3 := useMatch "/tab3" in
  if decide (is_Some isTab1) then "tab1"
  else if decide (is_Some isTab2) then "tab2"
  else if decide (is_Some isTab3) then "tab3"
  else "tab1".

End hooks.

End Router.

Module Tabs.

Inductive Content := Tab1Content | Tab2Content | Tab3Content.

Record Tab := { label : string; path : string; component : Content }.

(** The object [tabs], its keys in the order written, which is the
    order [Object.values] follows. *)
Definition tabs : list (string * Tab) :=
  [("TAB1", {| label := "Tab 1"; path := "tab1"; component := Tab1Content |});
   ("TAB2", {| label := "Tab 2"; path := "tab2"; component := Tab2Content |});
   ("TAB3", {| label := "Tab 3"; path := "tab3"; component := Tab3Content |})].

(** [Object.values(tabs).map((tab) => tab.path)] *)
Definition tabPaths : list string := path <$> tabs.*2.

(** The first [TabbedLayout]: the content it renders for the URL
    parameter [selectedTab] ([None] when the route has none). *)
Definition TabContent (selectedTab : option string) : Content :=
  let TabContent := Tab1Content in
  let TabContent :=
    if decide (selectedTab = Some "tab2") then Tab2Content else TabContent in
  let TabContent :=
    if decide (selectedTab = Some "tab3") then Tab3Content else TabContent in
  TabContent.

(** The last [TabbedLayout]: the [value] it gives [<Tabs>]. *)
Definition selectedTab (matchPath : string → string → option Router.PathMatch)
    (pathname : string) : string :=
  Router.useRouteMatch matchPath tabPaths pathname.

End Tabs.

(** A [matchPath] for examples: a pattern matches the path name that is
    the pattern after one slash. *)
Definition exact_match (pattern pathname : string) : option Router.PathMatch :=
  if decide (pathname = "/" +:+ pattern)
  then Some {| Router.pattern := {| Router.path := pattern |} |}
  else None.

(** * Properties *)

(** ** [split], [join] and [includes] *)

Example split_keeps_empty_pieces : split " " "a  b " = ["a"; ""; "b"; ""].
Proof. reflexivity. Qed.

Example split_empty_string : split " " "" = [""].
Proof. reflexivity. Qed.

Example split_ignores_tab : split " " tabbed = [tabbed].
Proof. reflexivity. Qed.

Section strings.
Context (sep : ascii).

Lemma split_not_nil s : split sep s ≠ [].
Proof.
  destruct s as [|c s]; simpl; [done|].
  case_decide; [done|]. by destruct (split sep s).
Qed.

Lemma split_free s : free_of sep s → split sep s = [s].
Proof.
  induction s as [|c s IH]; simpl; [done|].
  intros [Hc Hs]. rewrite decide_False by done. by rewrite IH.
Qed.

Lemma split_app_sep s t :
  free_of sep s → split sep (s +:+ String sep t) = s :: split sep t.
Proof.
  induction s as [|c s IH]; simpl.
  - intros _. by rewrite decide_True.
  - intros [Hc Hs]. rewrite decide_False by done. by rewrite IH.
Qed.

Lemma split_join pieces :
  pieces ≠ [] → Forall (free_of sep) pieces →
  split sep (join sep pieces) = pieces.
Proof.
  induction pieces as [|piece rest IH]; [done|].
  intros _ Hfree. apply Forall_cons in Hfree as [Hpiece Hrest].
  destruct rest as [|next rest].
  - simpl. by apply split_free.
  - change (join sep (piece :: next :: rest))
      with (piece +:+ String sep (join sep (next :: rest))).
    rewrite split_app_sep by done. f_equal. by apply IH.
Qed.

Lemma split_pieces_free s : Forall (free_of sep) (split sep s).
Proof.
  induction s as [|c s IH]; simpl.
  - by repeat constructor.
  - case_decide.
    + by constructor.
    + destruct (split sep s) as [|piece pieces].
      * by repeat constructor.
      * apply Forall_cons in IH as [? ?]. by repeat constructor.
Qed.

Lemma join_split s : join sep (split sep s) = s.
Proof.
  induction s as [|c s IH]; simpl; [done|].
  case_decide as Hc.
  - subst c. pose proof (split_not_nil s).
    destruct (split sep s) as [|piece pieces]; [done|].
    simpl in *. by rewrite IH.
  - pose proof (split_not_nil s).
    destruct (split sep s) as [|piece pieces]; [done|].
    destruct pieces; simpl in *; by rewrite <-IH.
Qed.

End strings.

Lemma includes_elem_of xs x : includes xs x = bool_decide (x ∈ xs).
Proof.
  induction xs as [|y ys IH]; cbn [includes].
  - symmetry. apply bool_decide_eq_false_2, not_elem_of_nil.
  - destruct (decide (y = x)) as [->|Hy].
    + symmetry. apply bool_decide_eq_true_2. left.
    + rewrite IH. apply bool_decide_ext. rewrite elem_of_cons.
      split; [by right | by intros [->|?]].
Qed.

Lemma truthy_Some s : truthy (Some s) = true ↔ s ≠ "".
Proof. by destruct s. Qed.

(** ** One step of the fold *)

Lemma place_named props :
  truthy (metastring props) = true →
  place props = Return (named (default "" (metastring props))).
Proof. unfold place. by intros ->. Qed.

Lemma place_by_language props :
  truthy (metastring props) = false → place props = by_language props.
Proof. unfold place. by intros ->. Qed.

Lemma callback_block result props :
  callback result (block props) =
  match place props with
  | Return p =>
      if decide (is_Some (result !! filePath p))
      then Throw (DuplicatePath (filePath p))
      else Return (<[filePath p := file_of props p]> result)
  | Throw e => Throw e
  end.
Proof.
  unfold callback, block. cbn [props_of mbind Completion_bind nested_props].
  rewrite decide_False by (by intros ?).
  by destruct (place props).
Qed.

Lemma callback_unrelated result c :
  unrelated c → callback result c = Return result.
Proof.
  destruct c as [s|mdxType nested]; [done|]. intros Hne.
  unfold callback. cbn [props_of mbind Completion_bind].
  by rewrite decide_True.
Qed.

(** A step that returns either skipped an element that is not a [pre],
    or added the file of a block at a path that was free. *)
Lemma callback_Return result c result' :
  callback result c = Return result' →
  (is_pre c = false ∧ path_of c = None ∧ result' = result) ∨
  (∃ props p, c = block props ∧ place props = Return p ∧
     is_pre c = true ∧ path_of c = Some (filePath p) ∧
     result !! filePath p = None ∧
     result' = <[filePath p := file_of props p]> result).
Proof.
  destruct c as [s|mdxType nested]; [done|].
  destruct (decide (mdxType = Some "pre")) as [->|Hne].
  - destruct nested as [|s|props]; [done..|].
    change (Element (Some "pre") (Code props)) with (block props).
    rewrite callback_block. intros Hstep. right.
    destruct (place props) as [p|e] eqn:Hplace; [|done].
    case_decide as Hsome; [done|]. injection Hstep as <-.
    exists props, p. split_and!; try done.
    + unfold block, path_of. rewrite decide_True by done. by rewrite Hplace.
    + by apply eq_None_not_Some.
  - rewrite callback_unrelated by done. intros [= <-]. left.
    split_and!; [|by destruct nested; simpl; rewrite ?decide_False|done].
    simpl. by apply bool_decide_eq_false_2.
Qed.

Lemma reduce_app {A B} (f : B → A → Completion B) xs ys acc :
  reduce f (xs ++ ys) acc = acc' ← reduce f xs acc ; reduce f ys acc'.
Proof.
  revert acc. induction xs as [|x xs IH]; intros acc; simpl; [done|].
  destruct (f acc x); simpl; [apply IH|done].
Qed.

(** What a fold that returns has done to its accumulator. *)
Lemma reduce_Return cs : ∀ acc m,
  reduce callback cs acc = Return m →
  acc ⊆ m ∧
  NoDup (omap path_of cs) ∧
  (∀ k, k ∈ omap path_of cs → acc !! k = None) ∧
  (∀ k, is_Some (m !! k) ↔ is_Some (acc !! k) ∨ k ∈ omap path_of cs) ∧
  size m = size acc + List.length (List.filter is_pre cs).
Proof.
  induction cs as [|c cs IH]; intros acc m; simpl.
  - intros [= <-]. split_and!; [done|constructor|by intros ? ?%elem_of_nil| |lia].
    intros k. rewrite elem_of_nil. tauto.
  - destruct (callback acc c) as [acc'|e] eqn:Hstep; [|done]. simpl.
    intros (Hsub & Hnodup & Hfree & Hdom & Hsize)%IH.
    apply callback_Return in Hstep
      as [(Hpre & Hpath & ->)|(props & p & -> & Hplace & Hpre & Hpath & Hnone & ->)];
      rewrite Hpre, Hpath; [done|].
    split_and!.
    + etrans; [|done]. by apply insert_subseteq.
    + constructor; [|done]. intros Hin%Hfree. by rewrite lookup_insert_eq in Hin.
    + intros k [->|Hin]%elem_of_cons; [done|].
      apply Hfree in Hin. apply lookup_insert_None in Hin. by destruct Hin.
    + intros k. rewrite Hdom, elem_of_cons, lookup_insert_is_Some.
      destruct (decide (filePath p = k)) as [<-|?]; intuition auto.
    + rewrite Hsize, map_size_insert_None by done. simpl. lia.
Qed.

(** Elements that are not tagged [pre] leave every fold as it is. *)
Lemma reduce_with_extras xs ys :
  with_extras unrelated xs ys →
  ∀ acc, reduce callback ys acc = reduce callback xs acc.
Proof.
  induction 1 as [|c xs ys _ IH|c xs ys Hc _ IH]; intros acc; simpl.
  - done.
  - destruct (callback acc c); simpl; [apply IH|done].
  - rewrite callback_unrelated by done. apply IH.
Qed.

Lemma with_extras_filter cs :
  Forall (λ c, is_pre c = false → unrelated c) cs →
  with_extras unrelated (List.filter is_pre cs) cs.
Proof.
  induction 1 as [|c cs Hc _ IH]; simpl; [constructor|].
  destruct (is_pre c) eqn:Hpre; constructor; auto.
Qed.

Lemma well_shaped_unrelated c :
  well_shaped c → is_pre c = false → unrelated c.
Proof.
  destruct c as [s|mdxType nested]; simpl; [done|].
  intros _ Hpre Heq. by rewrite bool_decide_eq_true_2 in Hpre.
Qed.

(** A fold over well-shaped children never reads a property of
    [undefined]. *)
Lemma reduce_well_shaped cs :
  Forall well_shaped cs →
  ∀ acc, reduce callback cs acc ≠ Throw TypeError.
Proof.
  induction 1 as [|c cs Hc _ IH]; intros acc; simpl; [done|].
  destruct (callback acc c) as [acc'|e] eqn:Hstep; simpl; [apply IH|].
  intros [= ->]. destruct c as [s|mdxType nested]; [done|].
  destruct (decide (mdxType = Some "pre")) as [->|Hne].
  - destruct Hc as [props ->]; [done|].
    change (Element (Some "pre") (Code props)) with (block props) in Hstep.
    rewrite callback_block in Hstep. unfold place, by_language in Hstep.
    repeat case_match; simplify_eq.
  - by rewrite callback_unrelated in Hstep.
Qed.

(** Named blocks with distinct paths, none of them taken: the fold
    returns, and every block has its file at its path. *)
Lemma reduce_named (blocks : list CodeProps) : ∀ acc,
  (∀ props, props ∈ blocks → truthy (metastring props) = true) →
  NoDup (named_path <$> blocks) →
  (∀ props, props ∈ blocks → acc !! named_path props = None) →
  ∃ m, reduce callback (block <$> blocks) acc = Return m ∧
       ∀ props, props ∈ blocks →
         m !! named_path props =
         Some (file_of props (named (default "" (metastring props)))).
Proof.
  induction blocks as [|props blocks IH]; intros acc Hnamed Hnodup Hfree.
  - exists acc. split; [done|]. by intros ? ?%elem_of_nil.
  - rewrite fmap_cons in Hnodup. apply NoDup_cons in Hnodup as [Hnew Hnodup].
    cbn [fmap list_fmap reduce]. rewrite callback_block.
    rewrite place_named by (apply Hnamed; left).
    fold (named_path props).
    rewrite decide_False
      by (rewrite <-eq_None_not_Some; apply Hfree; left).
    cbn [mbind Completion_bind].
    destruct (IH (<[named_path props :=
                    file_of props (named (default "" (metastring props)))]> acc))
      as (m & Hm & Hfiles).
    + intros ? ?. apply Hnamed. by right.
    + done.
    + intros props' Hin. rewrite lookup_insert_ne; [apply Hfree; by right|].
      intros Heq. apply Hnew. rewrite Heq. by apply list_elem_of_fmap_2.
    + exists m. split; [done|].
      intros props' [->|Hin]%elem_of_cons; [|by apply Hfiles].
      apply reduce_Return in Hm as (Hsub & _).
      eapply lookup_weaken; [|done]. apply lookup_insert_eq.
Qed.

Lemma path_of_named (blocks : list CodeProps) :
  (∀ props, props ∈ blocks → truthy (metastring props) = true) →
  omap path_of (block <$> blocks) = named_path <$> blocks.
Proof.
  induction blocks as [|props blocks IH]; intros Hnamed; [done|].
  cbn [fmap list_fmap omap list_omap]. unfold block at 1, path_of at 1.
  rewrite decide_True by done. rewrite place_named by (apply Hnamed; left).
  fold (named_path props). f_equal. apply IH. intros ? ?. apply Hnamed. by right.
Qed.

Lemma filter_is_pre_blocks (blocks : list CodeProps) :
  List.filter is_pre (block <$> blocks) = block <$> blocks.
Proof.
  induction blocks as [|props blocks IH]; [done|].
  cbn [fmap list_fmap List.filter]. fold (fmap (M:=list) block blocks).
  unfold block at 1. cbn [is_pre]. rewrite bool_decide_eq_true_2 by done.
  by rewrite IH.
Qed.

(** ** The metadata line *)

Lemma named_join name params :
  free_of " " name → Forall (free_of " ") params →
  named (join " " (name :: params)) =
  {| filePath := "/" +:+ name;
     fileHidden := bool_decide ("hidden" ∈ params);
     fileActive := bool_decide ("active" ∈ params) |}.
Proof.
  intros Hname Hparams. unfold named.
  rewrite split_join by (done || by constructor).
  cbn [hd tl]. rewrite !includes_elem_of.
  by do 2 destruct (bool_decide _).
Qed.

Lemma createFileMap_named cls meta text :
  meta ≠ "" →
  createFileMap [block {| className := cls; metastring := Some meta;
                          children := text |}] =
  Return {[ filePath (named meta) :=
              {| code := text; hidden := fileHidden (named meta);
                 active := fileActive (named meta) |} ]}.
Proof.
  intros Hmeta%truthy_Some. unfold createFileMap. cbn [reduce].
  rewrite callback_block, place_named by done.
  by rewrite decide_False by (rewrite lookup_empty; by intros [? ?]).
Qed.

Lemma createFileMap_by_language props p :
  truthy (metastring props) = false →
  by_language props = Return p →
  createFileMap [block props] = Return {[ filePath p := file_of props p ]}.
Proof.
  intros Hmeta Hp. unfold createFileMap. cbn [reduce].
  rewrite callback_block, place_by_language, Hp by done.
  by rewrite decide_False by (rewrite lookup_empty; by intros [? ?]).
Qed.

Lemma createFileMap_missing props e :
  place props = Throw e → createFileMap [block props] = Throw e.
Proof.
  intros Hp. unfold createFileMap. cbn [reduce].
  by rewrite callback_block, Hp.
Qed.

(** Two blocks that resolve alike and carry the same text are
    interchangeable at any position. *)
Lemma createFileMap_same_place props props' before after :
  place props = place props' → children props = children props' →
  createFileMap (before ++ block props :: after)
  = createFileMap (before ++ block props' :: after).
Proof.
  intros Hplace Htext. unfold createFileMap. rewrite !reduce_app.
  destruct (reduce callback before ∅) as [acc|e]; [|done].
  cbn [mbind Completion_bind reduce].
  rewrite !callback_block, Hplace. unfold file_of. by rewrite Htext.
Qed.

Lemma elem_of_filter_is_flag token params :
  is_flag token = true →
  token ∈ params ↔ token ∈ List.filter is_flag params.
Proof.
  intros Hflag. rewrite !list_elem_of_In, filter_In. tauto.
Qed.

(** ** The store *)

(** Two calls in a row from the empty store: two objects, at two
    locations, with the same content. *)
Example two_calls :
  let first := Heap.createFileMap [block Index_tsx; block App_tsx] ∅ in
  let second := Heap.createFileMap [block Index_tsx; block App_tsx] first.2 in
  first.1 = Return 1%positive ∧ second.1 = Return 2%positive ∧
  second.2 !! 1%positive = second.2 !! 2%positive ∧
  Return (default ∅ (second.2 !! 2%positive))
  = createFileMap [block Index_tsx; block App_tsx].
Proof. vm_compute. by repeat split. Qed.

(** A step on the object at [l] does to it what the callback does to the
    mapping, and touches nothing else. *)
Lemma Heap_callback (l : positive) (c : Child)
    (σ : gmap positive (gmap string SandpackFile)) (object : gmap string SandpackFile) :
  σ !! l = Some object →
  Heap.callback l c σ =
  match callback object c with
  | Return object' => (Return l, <[l := object']> σ)
  | Throw e => (Throw e, σ)
  end.
Proof.
  intros Hl. destruct c as [s|mdxType nested]; [done|].
  unfold Heap.callback, callback, Heap.bind, Heap.lift.
  cbn [props_of mbind Completion_bind].
  case_decide.
  { unfold Heap.ret. by rewrite insert_id. }
  destruct nested as [|s|props]; [done..|].
  cbn [nested_props mbind Completion_bind].
  destruct (place props) as [p|e]; [|done].
  cbn [mbind Completion_bind].
  unfold Heap.read. rewrite Hl. cbn [mbind option_bind].
  case_decide; [done|].
  unfold Heap.write, Heap.ret. f_equal. apply map_eq. intros l'.
  rewrite lookup_alter, lookup_insert.
  case_decide; [subst; by rewrite Hl|done].
Qed.

Lemma Heap_reduce (cs : list Child) :
  ∀ (l : positive) (σ : gmap positive (gmap string SandpackFile)) object,
  σ !! l = Some object →
  ∃ object',
    Heap.reduce Heap.callback cs l σ =
    (match reduce callback cs object with
     | Return _ => Return l
     | Throw e => Throw e
     end, <[l := object']> σ) ∧
    (∀ m, reduce callback cs object = Return m → object' = m).
Proof.
  induction cs as [|c cs IH]; intros l σ object Hl.
  - exists object. split; [|by intros ? [= <-]].
    cbn [Heap.reduce reduce]. unfold Heap.ret. by rewrite insert_id.
  - cbn [Heap.reduce reduce]. unfold Heap.bind at 1.
    rewrite (Heap_callback l c σ object Hl).
    destruct (callback object c) as [step|e]; cbn [mbind Completion_bind].
    + destruct (IH l (<[l := step]> σ) step) as (object' & Hrun & Hret).
      { apply lookup_insert_eq. }
      exists object'. split; [|done].
      by rewrite Hrun, insert_insert_eq.
    + exists object. split; [|done]. by rewrite insert_id.
Qed.

(** A call allocates one object, at a location not in use, and leaves
    in it what the function computes. *)
Lemma Heap_createFileMap (cs : list Child)
    (σ : gmap positive (gmap string SandpackFile)) :
  ∃ object',
    Heap.createFileMap cs σ =
    (match createFileMap cs with
     | Return _ => Return (fresh (dom σ))
     | Throw e => Throw e
     end, <[fresh (dom σ) := object']> σ) ∧
    (∀ m, createFileMap cs = Return m → object' = m).
Proof.
  unfold Heap.createFileMap, Heap.bind, Heap.new_object. cbn zeta.
  destruct (Heap_reduce cs (fresh (dom σ)) (<[fresh (dom σ) := ∅]> σ) ∅)
    as (object' & Hrun & Hret).
  { apply lookup_insert_eq. }
  exists object'. split; [|done].
  by rewrite Hrun, insert_insert_eq.
Qed.

Lemma fresh_not_allocated (σ : gmap positive (gmap string SandpackFile)) :
  σ !! fresh (dom σ) = None.
Proof. apply not_elem_of_dom, is_fresh. Qed.

(** ** The statements of the specification *)

(** C1.  For a sequence of code blocks, each a [pre] wrapper whose
    metadata line names its file, with pairwise distinct paths,
    [createFileMap] returns a mapping that has exactly one file per
    block (as many entries as blocks, the keys being the blocks' paths),
    and the file at a block's path carries the block's text unchanged,
    with the flags of its metadata line. *)
Theorem C1_one_file_per_named_block (blocks : list CodeProps) :
  (∀ props, props ∈ blocks → truthy (metastring props) = true) →
  NoDup (named_path <$> blocks) →
  ∃ m, createFileMap (block <$> blocks) = Return m ∧
       size m = List.length blocks ∧
       (∀ k, is_Some (m !! k) ↔ k ∈ named_path <$> blocks) ∧
       (∀ props, props ∈ blocks →
          ∃ file, m !! named_path props = Some file ∧
                  code file = children props ∧
                  hidden file = fileHidden (named (default "" (metastring props))) ∧
                  active file = fileActive (named (default "" (metastring props)))).
Proof.
  intros Hnamed Hnodup.
  destruct (reduce_named blocks ∅ Hnamed Hnodup) as (m & Hm & Hfiles).
  { intros. apply lookup_empty. }
  exists m. split; [done|].
  apply reduce_Return in Hm as (_ & _ & _ & Hdom & Hsize).
  rewrite path_of_named in Hdom by done.
  rewrite filter_is_pre_blocks, length_fmap, map_size_empty in Hsize.
  split_and!; [done| |].
  - intros k. rewrite Hdom, lookup_empty, is_Some_alt. tauto.
  - intros props Hin. eexists. split; [by apply Hfiles|done].
Qed.

Lemma C1_witness :
  ∃ m, createFileMap (block <$> [Index_tsx; App_tsx]) = Return m ∧
       size m = 2 ∧
       (∀ k, is_Some (m !! k) ↔ k ∈ named_path <$> [Index_tsx; App_tsx]) ∧
       (∀ props, props ∈ [Index_tsx; App_tsx] →
          ∃ file, m !! named_path props = Some file ∧
                  code file = children props ∧
                  hidden file = fileHidden (named (default "" (metastring props))) ∧
                  active file = fileActive (named (default "" (metastring props)))).
Proof.
  apply (C1_one_file_per_named_block [Index_tsx; App_tsx]).
  - intros props Hin.
    apply (Forall_forall (λ props, truthy (metastring props) = true)
             [Index_tsx; App_tsx]); [|done].
    repeat constructor.
  - apply (bool_decide_unpack _). vm_compute. exact I.
Defined.

(** C4.  When a block resolves to a path that the mapping under
    construction already has, [createFileMap] throws the duplicate-path
    error for that path; a step that returns keeps every entry it was
    given; hence in a mapping that is returned the blocks' paths are
    pairwise distinct and are exactly its keys, one entry per block.  Two
    fences with language [tsx] and no name both resolve to "/App.tsx"
    and are rejected. *)
Theorem C4_duplicate_path_is_an_error (cs : list Child) :
  (∀ before props after acc p,
     cs = before ++ block props :: after →
     createFileMap before = Return acc →
     place props = Return p →
     is_Some (acc !! filePath p) →
     createFileMap cs = Throw (DuplicatePath (filePath p))) ∧
  (∀ result c result',
     c ∈ cs → callback result c = Return result' → result ⊆ result') ∧
  (∀ m, createFileMap cs = Return m →
     NoDup (omap path_of cs) ∧
     (∀ k, is_Some (m !! k) ↔ k ∈ omap path_of cs) ∧
     size m = List.length (List.filter is_pre cs)) ∧
  createFileMap [block hello_world; block hello_world]
    = Throw (DuplicatePath "/App.tsx").
Proof.
  split_and!.
  - intros before props after acc p -> Hbefore Hplace Hsome.
    unfold createFileMap in *. rewrite reduce_app, Hbefore.
    cbn [mbind Completion_bind reduce]. rewrite callback_block, Hplace.
    by rewrite decide_True.
  - intros result c result' _ Hstep.
    apply callback_Return in Hstep as [(_ & _ & ->)|(? & ? & _ & _ & _ & _ & ? & ->)].
    + done.
    + by apply insert_subseteq.
  - intros m (_ & Hnodup & _ & Hdom & Hsize)%reduce_Return.
    rewrite map_size_empty in Hsize. split_and!; [done| |done].
    intros k. rewrite Hdom, lookup_empty, is_Some_alt. tauto.
  - vm_compute. reflexivity.
Qed.

Lemma C4_witness :
  createFileMap ([block App_tsx; paragraph] ++ block hello_world :: [block Index_tsx])
    = Throw (DuplicatePath "/App.tsx").
Proof.
  refine (proj1 (C4_duplicate_path_is_an_error _)
            [block App_tsx; paragraph] hello_world [block Index_tsx]
            {[ "/App.tsx" := file_of App_tsx (named "App.tsx") ]}
            {| filePath := "/App.tsx"; fileHidden := false; fileActive := false |}
            eq_refl _ _ _).
  - vm_compute. reflexivity.
  - vm_compute. reflexivity.
  - vm_compute. eauto.
Defined.

(** C6, as the specification states it, fails on stray text: a string
    among the children is not tagged [pre], yet it is not skipped.  It
    has no [props], so reading [props.mdxType] throws a [TypeError],
    while the same sequence without the string returns a mapping. *)
Lemma C6_stray_text_counterexample :
  with_extras (λ c, is_pre c = false)
    [block hello_world] [Text "Try it:"; block hello_world] ∧
  createFileMap [Text "Try it:"; block hello_world] = Throw TypeError ∧
  createFileMap [block hello_world]
    = Return {[ "/App.tsx" := {| code := children hello_world;
                                 hidden := false; active := false |} ]} ∧
  createFileMap [Text "Try it:"; block hello_world]
    ≠ createFileMap [block hello_world].
Proof.
  split_and!.
  - apply extras_more; [done|]. apply extras_same, extras_done.
  - vm_compute. reflexivity.
  - vm_compute. reflexivity.
  - vm_compute. discriminate.
Qed.

(** C6, amended.  Putting elements that are not tagged [pre] anywhere
    into a sequence of children changes nothing: [createFileMap] gives
    the same mapping, or throws the same error, as on the sequence
    without them. *)
Theorem C6_unrelated_elements_are_skipped (cs cs' : list Child) :
  with_extras unrelated cs cs' →
  createFileMap cs' = createFileMap cs.
Proof. intros Hextras. by apply reduce_with_extras. Qed.

Lemma C6_witness :
  createFileMap [paragraph; block Index_tsx; paragraph; block App_tsx]
  = createFileMap [block Index_tsx; block App_tsx].
Proof.
  apply (C6_unrelated_elements_are_skipped
           [block Index_tsx; block App_tsx]
           [paragraph; block Index_tsx; paragraph; block App_tsx]).
  apply extras_more; [by vm_compute|]. apply extras_same.
  apply extras_more; [by vm_compute|]. apply extras_same.
  apply extras_done.
Defined.

(** C5, as the specification states it, fails: a [TypeError] is
    reachable.  A [pre] element that wraps bare text instead of a [code]
    element makes the destructuring yield no [props], and a string child
    has no [props] to begin with; neither is skipped, and the error is
    none of the two the specification lists. *)
Lemma C5_type_error_counterexample :
  createFileMap [Element (Some "pre") (Chars "npm install")] = Throw TypeError ∧
  createFileMap [Text "Try it:"] = Throw TypeError ∧
  ¬ ((∃ m, createFileMap [Element (Some "pre") (Chars "npm install")] = Return m) ∨
     (∃ text, createFileMap [Element (Some "pre") (Chars "npm install")]
                = Throw (MissingFilename text)) ∨
     (∃ path, createFileMap [Element (Some "pre") (Chars "npm install")]
                = Throw (DuplicatePath path))).
Proof.
  split_and!; [vm_compute; reflexivity..|].
  intros [[m Hm]|[[text Ht]|[path Hp]]]; vm_compute in *; discriminate.
Qed.

(** C5, amended.  On children that are elements, the [pre] ones each
    wrapping one element, [createFileMap] returns a mapping or throws
    one of two errors, the missing-filename or the duplicate-path one.
    Elements not tagged [pre] are skipped, not rejected: the outcome is
    that of the [pre] children alone.  No token of a metadata line is
    rejected: a block with a non-empty metadata line always resolves. *)
Theorem C5_two_errors (cs : list Child) :
  Forall well_shaped cs →
  ((∃ m, createFileMap cs = Return m) ∨
   (∃ text, createFileMap cs = Throw (MissingFilename text)) ∨
   (∃ path, createFileMap cs = Throw (DuplicatePath path))) ∧
  createFileMap cs = createFileMap (List.filter is_pre cs) ∧
  (∀ props, truthy (metastring props) = true → ∃ p, place props = Return p).
Proof.
  intros Hshape. split_and!.
  - pose proof (reduce_well_shaped cs Hshape ∅) as Hne.
    unfold createFileMap. destruct (reduce callback cs ∅) as [m|[text|path|]]; eauto.
    done.
  - apply reduce_with_extras, with_extras_filter.
    eapply Forall_impl; [done|]. apply well_shaped_unrelated.
  - intros props Hnamed. rewrite place_named by done. eauto.
Qed.

Lemma C5_witness :
  ((∃ m, createFileMap [block Index_tsx; paragraph; block App_tsx] = Return m) ∨
   (∃ text, createFileMap [block Index_tsx; paragraph; block App_tsx]
              = Throw (MissingFilename text)) ∨
   (∃ path, createFileMap [block Index_tsx; paragraph; block App_tsx]
              = Throw (DuplicatePath path))) ∧
  createFileMap [block Index_tsx; paragraph; block App_tsx]
    = createFileMap (List.filter is_pre [block Index_tsx; paragraph; block App_tsx]) ∧
  (∀ props, truthy (metastring props) = true → ∃ p, place props = Return p).
Proof.
  apply (C5_two_errors [block Index_tsx; paragraph; block App_tsx]).
  apply Forall_cons_2; [intros _; by eexists|].
  apply Forall_cons_2; [intros [=]|].
  apply Forall_cons_2; [intros _; by eexists|].
  apply Forall_nil_2.
Defined.

(** C2, as the specification states it, fails: the line is not split on
    whitespace but on the space character alone.  With a TAB between the
    name and [active], the specification's reading names the file
    "/App.tsx" and makes it active; the function takes the whole line as
    the name and sets no flag. *)
Lemma C2_whitespace_counterexample :
  Spec.named tabbed
    = {| filePath := "/App.tsx"; fileHidden := false; fileActive := true |} ∧
  place {| className := Some "language-tsx"; metastring := Some tabbed;
           children := "export default 1;" |}
    = Return {| filePath := "/" +:+ tabbed; fileHidden := false;
                fileActive := false |} ∧
  place {| className := Some "language-tsx"; metastring := Some tabbed;
           children := "export default 1;" |}
    ≠ Return (Spec.named tabbed).
Proof. split_and!; [vm_compute; reflexivity..|vm_compute; discriminate]. Qed.

(** C2, amended.  A metadata line that is present (a non-empty string)
    is split at every space character, U+0020, and at nothing else: it
    is in exactly one way a name and parameters, none containing a
    space, joined by single spaces.  The path is "/" followed by the
    name; [hidden] is true exactly when "hidden" is among the
    parameters, [active] exactly when "active" is; the code is the
    block's text.  "App.tsx active" gives "/App.tsx", not hidden,
    active; "util.ts hidden" gives "/util.ts", hidden, not active. *)
Theorem C2_metadata_line (cls : option string) (text : string) :
  (∀ meta, meta ≠ "" →
     (∃ name params,
        meta = join " " (name :: params) ∧
        free_of " " name ∧ Forall (free_of " ") params) ∧
     (∀ name params,
        meta = join " " (name :: params) →
        free_of " " name → Forall (free_of " ") params →
        place {| className := cls; metastring := Some meta; children := text |}
          = Return {| filePath := "/" +:+ name;
                      fileHidden := bool_decide ("hidden" ∈ params);
                      fileActive := bool_decide ("active" ∈ params) |} ∧
        createFileMap [block {| className := cls; metastring := Some meta;
                                children := text |}]
          = Return {[ "/" +:+ name :=
                        {| code := text;
                           hidden := bool_decide ("hidden" ∈ params);
                           active := bool_decide ("active" ∈ params) |} ]})) ∧
  place {| className := cls; metastring := Some "App.tsx active"; children := text |}
    = Return {| filePath := "/App.tsx"; fileHidden := false; fileActive := true |} ∧
  place {| className := cls; metastring := Some "util.ts hidden"; children := text |}
    = Return {| filePath := "/util.ts"; fileHidden := true; fileActive := false |}.
Proof.
  split_and!; [|done..].
  intros meta Hmeta. split.
  - pose proof (split_not_nil " " meta) as Hne.
    pose proof (split_pieces_free " " meta) as Hfree.
    pose proof (join_split " " meta) as Hjoin.
    destruct (split " " meta) as [|name params]; [done|].
    apply Forall_cons in Hfree as [Hname Hparams]. by exists name, params.
  - intros name params -> Hname Hparams.
    rewrite createFileMap_named by done.
    rewrite place_named by (by apply truthy_Some).
    cbn [metastring default from_option id]. by rewrite named_join.
Qed.

Lemma C2_witness :
  place {| className := Some "language-tsx";
           metastring := Some "Layout.tsx active hidden";
           children := "export default 1;" |}
    = Return {| filePath := "/" +:+ "Layout.tsx";
                fileHidden := bool_decide ("hidden" ∈ ["active"; "hidden"]);
                fileActive := bool_decide ("active" ∈ ["active"; "hidden"]) |} ∧
  createFileMap [block {| className := Some "language-tsx";
                          metastring := Some "Layout.tsx active hidden";
                          children := "export default 1;" |}]
    = Return {[ "/" +:+ "Layout.tsx" :=
                  {| code := "export default 1;";
                     hidden := bool_decide ("hidden" ∈ ["active"; "hidden"]);
                     active := bool_decide ("active" ∈ ["active"; "hidden"]) |} ]}.
Proof.
  refine (proj2 (proj1 (C2_metadata_line (Some "language-tsx") "export default 1;")
                   "Layout.tsx active hidden" _)
            "Layout.tsx" ["active"; "hidden"] eq_refl _ _).
  - discriminate.
  - vm_compute. repeat split; discriminate.
  - repeat constructor; discriminate.
Defined.

(** C3.  A block without a metadata line (absent, or the empty string)
    takes its path from its language by the fixed lookup: [js] gives
    "/App.js", [ts] and [tsx] give "/App.tsx", [css] gives
    "/styles.css", neither hidden nor active.  The missing-filename
    error, with the block's text, is thrown exactly when the class is
    that of no language of the lookup, a missing class included; the
    block throws no other error. *)
Theorem C3_language_fallback (props : CodeProps) :
  truthy (metastring props) = false →
  (∀ tag path,
     (tag, path) ∈ Spec.language_paths →
     className props = Some ("language-" +:+ tag) →
     place props = Return {| filePath := path; fileHidden := false;
                             fileActive := false |} ∧
     createFileMap [block props]
       = Return {[ path := {| code := children props; hidden := false;
                              active := false |} ]}) ∧
  ((∀ tag path, (tag, path) ∈ Spec.language_paths →
                className props ≠ Some ("language-" +:+ tag)) ↔
   place props = Throw (MissingFilename (children props))) ∧
  ((∀ tag path, (tag, path) ∈ Spec.language_paths →
                className props ≠ Some ("language-" +:+ tag)) ↔
   createFileMap [block props] = Throw (MissingFilename (children props))) ∧
  (∀ e, createFileMap [block props] = Throw e →
        e = MissingFilename (children props)).
Proof.
  intros Hmeta.
  assert (Hlookup : ∀ tag path,
            (tag, path) ∈ Spec.language_paths →
            className props = Some ("language-" +:+ tag) →
            by_language props = Return {| filePath := path; fileHidden := false;
                                          fileActive := false |}).
  { intros tag path Hin Hcls. unfold by_language. rewrite Hcls.
    unfold Spec.language_paths in Hin.
    repeat (apply elem_of_cons in Hin as [[= -> ->]|Hin]; [done|]).
    by apply elem_of_nil in Hin. }
  assert (Hmissing : (∀ tag path, (tag, path) ∈ Spec.language_paths →
                        className props ≠ Some ("language-" +:+ tag)) ↔
                     by_language props = Throw (MissingFilename (children props))).
  { split.
    - intros Hnone. unfold by_language.
      rewrite !decide_False; [done|..].
      + apply (Hnone "css" "/styles.css"). unfold Spec.language_paths. set_solver.
      + apply (Hnone "tsx" "/App.tsx"). unfold Spec.language_paths. set_solver.
      + apply (Hnone "ts" "/App.tsx"). unfold Spec.language_paths. set_solver.
      + apply (Hnone "js" "/App.js"). unfold Spec.language_paths. set_solver.
    - intros Hthrow tag path Hin Hcls.
      by rewrite (Hlookup tag path Hin Hcls) in Hthrow. }
  split_and!.
  - intros tag path Hin Hcls. rewrite place_by_language by done.
    split; [by eapply Hlookup|].
    by rewrite (createFileMap_by_language props _ Hmeta (Hlookup _ _ Hin Hcls)).
  - by rewrite place_by_language.
  - rewrite Hmissing, <-place_by_language by done. split.
    + apply createFileMap_missing.
    + unfold createFileMap. cbn [reduce]. rewrite callback_block.
      destruct (place props) as [p|e]; [|by intros [= ->]].
      by case_decide.
  - unfold createFileMap. cbn [reduce]. rewrite callback_block.
    rewrite place_by_language by done. intros e.
    destruct (by_language props) as [p|e'] eqn:Hp.
    + rewrite decide_False by (rewrite lookup_empty; by intros [? ?]). done.
    + intros [= <-]. unfold by_language in Hp.
      repeat case_decide; by simplify_eq.
Qed.

Lemma C3_witness :
  (∀ tag path,
     (tag, path) ∈ Spec.language_paths →
     className hello_world = Some ("language-" +:+ tag) →
     place hello_world = Return {| filePath := path; fileHidden := false;
                                   fileActive := false |} ∧
     createFileMap [block hello_world]
       = Return {[ path := {| code := children hello_world; hidden := false;
                              active := false |} ]}) ∧
  ((∀ tag path, (tag, path) ∈ Spec.language_paths →
                className hello_world ≠ Some ("language-" +:+ tag)) ↔
   place hello_world = Throw (MissingFilename (children hello_world))) ∧
  ((∀ tag path, (tag, path) ∈ Spec.language_paths →
                className hello_world ≠ Some ("language-" +:+ tag)) ↔
   createFileMap [block hello_world]
     = Throw (MissingFilename (children hello_world))) ∧
  (∀ e, createFileMap [block hello_world] = Throw e →
        e = MissingFilename (children hello_world)).
Proof. apply (C3_language_fallback hello_world). reflexivity. Defined.

(** C7.  For a block with a metadata line, the tokens after the name
    may be permuted, and tokens other than "hidden" and "active" may be
    added or removed among them (the list of flag tokens staying the
    same), without changing the block's placement, nor the outcome of
    [createFileMap] on any sequence that contains the block. *)
Theorem C7_flag_order_and_unknown_tokens
    (cls : option string) (text name : string) (params params' : list string)
    (before after : list Child) :
  free_of " " name →
  Forall (free_of " ") params → Forall (free_of " ") params' →
  join " " (name :: params) ≠ "" → join " " (name :: params') ≠ "" →
  params ≡ₚ params' ∨ List.filter is_flag params = List.filter is_flag params' →
  place {| className := cls; metastring := Some (join " " (name :: params));
           children := text |}
  = place {| className := cls; metastring := Some (join " " (name :: params'));
             children := text |} ∧
  createFileMap
    (before ++ block {| className := cls;
                        metastring := Some (join " " (name :: params));
                        children := text |} :: after)
  = createFileMap
      (before ++ block {| className := cls;
                          metastring := Some (join " " (name :: params'));
                          children := text |} :: after).
Proof.
  intros Hname Hparams Hparams' Hmeta Hmeta' Hsame.
  assert (Hflags : ∀ token, is_flag token = true →
                            token ∈ params ↔ token ∈ params').
  { intros token Hflag. destruct Hsame as [Hperm|Hfilter].
    - by rewrite Hperm.
    - by rewrite (elem_of_filter_is_flag token params),
        (elem_of_filter_is_flag token params'), Hfilter. }
  assert (Hplace :
    place {| className := cls; metastring := Some (join " " (name :: params));
             children := text |}
    = place {| className := cls; metastring := Some (join " " (name :: params'));
               children := text |}).
  { rewrite !place_named by (by apply truthy_Some).
    cbn [metastring default from_option id]. rewrite !named_join by done.
    by rewrite (bool_decide_ext _ _ (Hflags "hidden" eq_refl)),
      (bool_decide_ext _ _ (Hflags "active" eq_refl)). }
  split; [done|]. by apply createFileMap_same_place.
Qed.

Lemma C7_witness :
  place {| className := Some "language-tsx";
           metastring := Some (join " " ["App.tsx"; "hidden"; "showLineNumbers"; "active"]);
           children := "export default 1;" |}
  = place {| className := Some "language-tsx";
             metastring := Some (join " " ["App.tsx"; "active"; "hidden"; "showLineNumbers"]);
             children := "export default 1;" |} ∧
  createFileMap
    ([block Index_tsx] ++
     block {| className := Some "language-tsx";
              metastring := Some (join " " ["App.tsx"; "hidden"; "showLineNumbers"; "active"]);
              children := "export default 1;" |} :: [paragraph])
  = createFileMap
      ([block Index_tsx] ++
       block {| className := Some "language-tsx";
                metastring := Some (join " " ["App.tsx"; "active"; "hidden"; "showLineNumbers"]);
                children := "export default 1;" |} :: [paragraph]).
Proof.
  apply (C7_flag_order_and_unknown_tokens (Some "language-tsx")
           "export default 1;" "App.tsx"
           ["hidden"; "showLineNumbers"; "active"]
           ["active"; "hidden"; "showLineNumbers"]
           [block Index_tsx] [paragraph]).
  - vm_compute. repeat split; discriminate.
  - repeat constructor; discriminate.
  - repeat constructor; discriminate.
  - discriminate.
  - discriminate.
  - left. apply (bool_decide_unpack _). vm_compute. exact I.
Defined.

(** C9.  A metadata line that is the empty string counts as absent: the
    block is placed as the same block without a metadata line, by its
    language, in every sequence; with a class outside the lookup the
    missing-filename error is thrown; and the placement is not the one
    the empty line would give if it were split ("/" as the path). *)
Theorem C9_empty_metastring_is_absent
    (cls : option string) (text : string) (before after : list Child) :
  place {| className := cls; metastring := Some ""; children := text |}
  = place {| className := cls; metastring := None; children := text |} ∧
  createFileMap
    (before ++ block {| className := cls; metastring := Some "";
                        children := text |} :: after)
  = createFileMap
      (before ++ block {| className := cls; metastring := None;
                          children := text |} :: after) ∧
  ((∀ tag path, (tag, path) ∈ Spec.language_paths →
                cls ≠ Some ("language-" +:+ tag)) →
   createFileMap [block {| className := cls; metastring := Some "";
                           children := text |}]
   = Throw (MissingFilename text)) ∧
  named "" = {| filePath := "/"; fileHidden := false; fileActive := false |} ∧
  place {| className := cls; metastring := Some ""; children := text |}
  ≠ Return (named "").
Proof.
  split_and!.
  - done.
  - by apply createFileMap_same_place.
  - intros Hnone. apply createFileMap_missing.
    unfold place, by_language. cbn [metastring truthy className children].
    rewrite !decide_False; [done|..].
    + apply (Hnone "css" "/styles.css"). unfold Spec.language_paths. set_solver.
    + apply (Hnone "tsx" "/App.tsx"). unfold Spec.language_paths. set_solver.
    + apply (Hnone "ts" "/App.tsx"). unfold Spec.language_paths. set_solver.
    + apply (Hnone "js" "/App.js"). unfold Spec.language_paths. set_solver.
  - done.
  - unfold place, by_language. cbn [metastring truthy className children].
    repeat case_decide; discriminate.
Qed.

Lemma C9_witness :
  createFileMap [block {| className := Some "language-jsx"; metastring := Some "";
                          children := "<App />" |}]
  = Throw (MissingFilename "<App />").
Proof.
  refine (proj1 (proj2 (proj2
            (C9_empty_metastring_is_absent (Some "language-jsx") "<App />" [] []))) _).
  intros tag path Hin.
  apply (Forall_forall (λ entry, Some "language-jsx" ≠ Some ("language-" +:+ entry.1))
           Spec.language_paths) in Hin; [done|].
  repeat constructor; discriminate.
Defined.

(** C10.  The first token of a metadata line is always the name, even
    when it is a flag word: the line "hidden" places the block at
    "/hidden", neither hidden nor active, and "active" at "/active"
    likewise.  In a line made of flag words only, the first word is the
    name and the flags are read from the remaining words. *)
Theorem C10_flag_word_as_name (cls : option string) (text : string) :
  place {| className := cls; metastring := Some "hidden"; children := text |}
  = Return {| filePath := "/hidden"; fileHidden := false; fileActive := false |} ∧
  place {| className := cls; metastring := Some "active"; children := text |}
  = Return {| filePath := "/active"; fileHidden := false; fileActive := false |} ∧
  createFileMap [block {| className := cls; metastring := Some "hidden";
                          children := text |}]
  = Return {[ "/hidden" := {| code := text; hidden := false; active := false |} ]} ∧
  createFileMap [block {| className := cls; metastring := Some "active";
                          children := text |}]
  = Return {[ "/active" := {| code := text; hidden := false; active := false |} ]} ∧
  (∀ word words,
     is_flag word = true → Forall (λ w, is_flag w = true) words →
     createFileMap [block {| className := cls;
                             metastring := Some (join " " (word :: words));
                             children := text |}]
     = Return {[ "/" +:+ word :=
                   {| code := text;
                      hidden := bool_decide ("hidden" ∈ words);
                      active := bool_decide ("active" ∈ words) |} ]}).
Proof.
  assert (Hfree : ∀ w, is_flag w = true → free_of " " w ∧ w ≠ "").
  { intros w [->%bool_decide_eq_true| ->%bool_decide_eq_true]%orb_true_iff;
      by vm_compute. }
  split_and!; [done|done|by rewrite createFileMap_named..|].
  intros word words [Hword Hne]%Hfree Hwords.
  assert (Forall (free_of " ") words) as Hwords'.
  { eapply Forall_impl; [done|]. intros w Hw. by apply Hfree. }
  rewrite createFileMap_named.
  - by rewrite named_join.
  - destruct word; [done|]. by destruct words.
Qed.

Lemma C10_witness :
  createFileMap [block {| className := Some "language-css";
                          metastring := Some (join " " ["active"; "hidden"; "active"]);
                          children := "body { margin: 0 }" |}]
  = Return {[ "/" +:+ "active" :=
                {| code := "body { margin: 0 }";
                   hidden := bool_decide ("hidden" ∈ ["hidden"; "active"]);
                   active := bool_decide ("active" ∈ ["hidden"; "active"]) |} ]}.
Proof.
  refine (proj2 (proj2 (proj2 (proj2
            (C10_flag_word_as_name (Some "language-css") "body { margin: 0 }"))))
            "active" ["hidden"; "active"] _ _).
  - reflexivity.
  - repeat constructor.
Defined.

(** C8.  Two calls of [createFileMap] on the same children, one after
    the other, in any store: each gives what the function computes from
    the children alone, hence both the same mapping or both the same
    error; the mapping returned first still reads the same after the
    second call, the two being different objects; and neither call
    changes an object that was in the store before it. *)
Theorem C8_same_input_same_result
    (cs : list Child) (σ : gmap positive (gmap string SandpackFile)) :
  let first := Heap.createFileMap cs σ in
  let second := Heap.createFileMap cs first.2 in
  Heap.yields first (createFileMap cs) ∧
  Heap.yields second (createFileMap cs) ∧
  Heap.yields (first.1, second.2) (createFileMap cs) ∧
  (∀ l l', first.1 = Return l → second.1 = Return l' → l ≠ l') ∧
  σ ⊆ first.2 ∧
  first.2 ⊆ second.2.
Proof.
  cbn zeta.
  destruct (Heap_createFileMap cs σ) as (object1 & -> & Hret1).
  cbn [fst snd]. set (l1 := fresh (dom σ)). set (σ1 := <[l1 := object1]> σ).
  destruct (Heap_createFileMap cs σ1) as (object2 & -> & Hret2).
  cbn [fst snd]. set (l2 := fresh (dom σ1)).
  assert (σ !! l1 = None) as Hl1 by apply fresh_not_allocated.
  assert (σ1 !! l2 = None) as Hl2 by apply fresh_not_allocated.
  assert (l1 ≠ l2) as Hne.
  { intros Heq. rewrite <-Heq in Hl2. unfold σ1 in Hl2.
    by rewrite lookup_insert_eq in Hl2. }
  unfold Heap.yields. cbn [fst snd]. split_and!.
  - unfold σ1. destruct (createFileMap cs) as [m|e]; [|done].
    by rewrite lookup_insert_eq, (Hret1 m).
  - destruct (createFileMap cs) as [m|e]; [|done].
    by rewrite lookup_insert_eq, (Hret2 m).
  - unfold σ1. destruct (createFileMap cs) as [m|e]; [|done].
    rewrite lookup_insert_ne, lookup_insert_eq by done. by rewrite (Hret1 m).
  - destruct (createFileMap cs); [|done]. by intros l l' [= <-] [= <-].
  - by apply insert_subseteq.
  - by apply insert_subseteq.
Qed.

(** * Further properties of the code *)

(** ** The exact outcome of the fold *)

Lemma path_of_entry_of c : path_of c = fst <$> entry_of c.
Proof.
  destruct c as [s|mdxType [|s|props]]; try done.
  unfold path_of, entry_of. case_decide; [|done]. by destruct (place props).
Qed.

Lemma entry_of_keys (cs : list Child) :
  (omap entry_of cs).*1 = omap path_of cs.
Proof.
  induction cs as [|c cs IH]; [done|].
  cbn [omap list_omap]. rewrite path_of_entry_of.
  destruct (entry_of c) as [[k v]|]; [|done].
  rewrite fmap_cons. cbn [fmap option_fmap option_map fst]. by f_equal.
Qed.

Lemma entry_of_unrelated c : unrelated c → entry_of c = None.
Proof.
  destruct c as [s|mdxType [|s|props]]; try done.
  intros Hne. unfold entry_of. by rewrite decide_False.
Qed.

(** On an accepted child a step depends on the child's entry alone. *)
Lemma callback_accepted result c :
  accepted c →
  callback result c =
  match entry_of c with
  | None => Return result
  | Some (k, file) =>
      if decide (is_Some (result !! k)) then Throw (DuplicatePath k)
      else Return (<[k := file]> result)
  end.
Proof.
  intros [Hc|(props & p & -> & Hp)].
  - by rewrite callback_unrelated, entry_of_unrelated.
  - rewrite callback_block, Hp. unfold entry_of, block.
    destruct (decide (Some "pre" = Some "pre")); [|done]. by rewrite Hp.
Qed.

Lemma callback_Return_accepted result c result' :
  callback result c = Return result' → accepted c.
Proof.
  destruct c as [s|mdxType nested]; [done|].
  destruct (decide (mdxType = Some "pre")) as [->|Hne]; [|by left].
  destruct nested as [|s|props]; [done..|].
  change (Element (Some "pre") (Code props)) with (block props).
  rewrite callback_block. destruct (place props) as [p|e] eqn:Hp; [|done].
  intros _. right. by exists props, p.
Qed.

Lemma reduce_Return_iff (cs : list Child) : ∀ acc m,
  reduce callback cs acc = Return m ↔
  Forall accepted cs ∧
  NoDup (omap path_of cs) ∧
  (∀ k, k ∈ omap path_of cs → acc !! k = None) ∧
  m = list_to_map (omap entry_of cs) ∪ acc.
Proof.
  induction cs as [|c cs IH]; intros acc m.
  - cbn [reduce omap list_omap list_to_map foldr]. rewrite (left_id_L ∅ (∪)).
    split.
    + intros [= <-]. split_and!; [constructor|constructor| |done].
      by intros ? ?%elem_of_nil.
    + by intros (_ & _ & _ & ->).
  - cbn [reduce]. rewrite Forall_cons.
    assert (accepted c →
            (callback acc c ≫= reduce callback cs) = Return m ↔
            NoDup (omap path_of (c :: cs)) ∧
            (∀ k, k ∈ omap path_of (c :: cs) → acc !! k = None) ∧
            Forall accepted cs ∧
            m = list_to_map (omap entry_of (c :: cs)) ∪ acc) as Hstep.
    { intros Hc. rewrite (callback_accepted acc c Hc).
      cbn [omap list_omap]. rewrite path_of_entry_of.
      destruct (entry_of c) as [[k file]|]; cbn [fmap option_fmap option_map fst].
      - cbn [list_to_map foldr]. fold (list_to_map (M:=gmap string SandpackFile)
                                         (omap entry_of cs)).
        rewrite NoDup_cons.
        destruct (decide (is_Some (acc !! k))) as [Hin|Hout].
        + split; [done|]. intros (_ & Hfree & _).
          rewrite (Hfree k) in Hin by left. by destruct Hin.
        + apply eq_None_not_Some in Hout. cbn [mbind Completion_bind].
          rewrite IH. split.
          * intros (Hall & Hnodup & Hfree & ->).
            assert (k ∉ omap path_of cs) as Hnew.
            { intros Hin%Hfree. by rewrite lookup_insert_eq in Hin. }
            split_and!; [done|done| |done|].
            -- intros k' [->|Hin]%elem_of_cons; [done|].
               apply Hfree, lookup_insert_None in Hin. by destruct Hin.
            -- cbn [fst snd]. rewrite <-insert_union_l. symmetry.
               apply insert_union_r.
               apply not_elem_of_list_to_map_1. by rewrite entry_of_keys.
          * intros ([Hnew Hnodup] & Hfree & Hall & ->).
            split_and!; [done|done| |].
            -- intros k' Hin. apply lookup_insert_None. split.
               ++ apply Hfree. by right.
               ++ by intros ->.
            -- cbn [fst snd]. rewrite <-insert_union_l.
               apply insert_union_r.
               apply not_elem_of_list_to_map_1. by rewrite entry_of_keys.
      - cbn [mbind Completion_bind]. rewrite IH. tauto. }
    split.
    + intros Hrun.
      assert (accepted c) as Hc.
      { destruct (callback acc c) as [acc'|e] eqn:Hcb; [|done].
        by eapply callback_Return_accepted. }
      apply (Hstep Hc) in Hrun. tauto.
    + intros ([Hc Hall] & Hrest). apply (Hstep Hc). tauto.
Qed.

Lemma createFileMap_Return_iff cs m :
  createFileMap cs = Return m ↔
  Forall accepted cs ∧ NoDup (omap path_of cs) ∧
  m = list_to_map (omap entry_of cs).
Proof.
  unfold createFileMap. rewrite reduce_Return_iff, (right_id_L ∅ (∪)).
  split; [tauto|]. intros (? & ? & ?). by split_and!.
Qed.

Lemma entries_disjoint (xs ys : list Child) :
  list_to_map (M:=gmap string SandpackFile) (omap entry_of xs)
    ##ₘ list_to_map (omap entry_of ys) ↔
  ∀ k, k ∈ omap path_of xs → k ∉ omap path_of ys.
Proof.
  rewrite map_disjoint_dom, !dom_list_to_map_L, !entry_of_keys.
  rewrite elem_of_disjoint. by setoid_rewrite elem_of_list_to_set.
Qed.

(** X1.  [createFileMap] returns exactly when every child is an element
    that is skipped or a code block that resolves, and the paths the
    blocks resolve to are pairwise distinct; the mapping returned then
    holds, at each block's path, the block's file, and nothing else. *)
Theorem X1_returns_exactly_when (cs : list Child) (m : gmap string SandpackFile) :
  createFileMap cs = Return m ↔
  Forall accepted cs ∧ NoDup (omap path_of cs) ∧
  m = list_to_map (omap entry_of cs).
Proof. apply createFileMap_Return_iff. Qed.

(** X2.  The order of the children does not matter to a call that
    returns: a permutation of the children gives the same mapping, and
    if the call throws, it throws on every permutation. *)
Theorem X2_order_of_children (cs cs' : list Child) :
  cs ≡ₚ cs' →
  (∀ m, createFileMap cs = Return m ↔ createFileMap cs' = Return m) ∧
  ((∃ e, createFileMap cs = Throw e) ↔ (∃ e, createFileMap cs' = Throw e)).
Proof.
  intros Hperm.
  assert (∀ m, createFileMap cs = Return m ↔ createFileMap cs' = Return m)
    as Hsame.
  { intros m. rewrite !createFileMap_Return_iff.
    rewrite <-Hperm at 1 2. split.
    - intros (? & Hnodup & ->). split_and!; [done..|].
      apply list_to_map_proper; [by rewrite entry_of_keys|by rewrite Hperm].
    - intros (? & Hnodup & ->). split_and!; [done..|].
      apply list_to_map_proper; [|by rewrite Hperm].
      rewrite entry_of_keys. by rewrite <-Hperm. }
  split; [done|].
  split; intros [e He].
  - destruct (createFileMap cs') as [m|e'] eqn:Hcs'; [|by eauto].
    by rewrite (proj2 (Hsame m) eq_refl) in He.
  - destruct (createFileMap cs) as [m|e'] eqn:Hcs; [|by eauto].
    by rewrite (proj1 (Hsame m) eq_refl) in He.
Qed.

Lemma X2_witness :
  (∀ m, createFileMap [block Index_tsx; paragraph; block App_tsx] = Return m ↔
        createFileMap [block App_tsx; block Index_tsx; paragraph] = Return m) ∧
  ((∃ e, createFileMap [block Index_tsx; paragraph; block App_tsx] = Throw e) ↔
   (∃ e, createFileMap [block App_tsx; block Index_tsx; paragraph] = Throw e)).
Proof.
  apply (X2_order_of_children [block Index_tsx; paragraph; block App_tsx]
           [block App_tsx; block Index_tsx; paragraph]).
  apply (Permutation_app_comm [block Index_tsx; paragraph] [block App_tsx]).
Defined.

(** X3.  A sequence of children in two parts: the call returns on the
    whole exactly when it returns on each part and the two mappings
    share no path; the mapping of the whole is then their union. *)
Theorem X3_two_parts (xs ys : list Child) (m : gmap string SandpackFile) :
  createFileMap (xs ++ ys) = Return m ↔
  ∃ m1 m2, createFileMap xs = Return m1 ∧ createFileMap ys = Return m2 ∧
           m1 ##ₘ m2 ∧ m = m1 ∪ m2.
Proof.
  rewrite createFileMap_Return_iff, Forall_app, !omap_app, NoDup_app,
    list_to_map_app.
  split.
  - intros ((Hxs & Hys) & (Hnx & Hdisj & Hny) & ->).
    eexists _, _. rewrite !createFileMap_Return_iff.
    split_and!; try done. by apply entries_disjoint.
  - intros (m1 & m2 & (Hxs & Hnx & ->)%createFileMap_Return_iff
                     & (Hys & Hny & ->)%createFileMap_Return_iff
                     & Hdisj & ->).
    split_and!; try done. by apply (entries_disjoint xs ys).
Qed.

(** ** Where an exception comes from *)

Lemma reduce_Throw (cs : list Child) : ∀ acc e,
  reduce callback cs acc = Throw e →
  ∃ before c after acc',
    cs = before ++ c :: after ∧
    reduce callback before acc = Return acc' ∧
    callback acc' c = Throw e.
Proof.
  induction cs as [|c cs IH]; intros acc e; [done|].
  cbn [reduce]. destruct (callback acc c) as [step|e'] eqn:Hstep.
  - cbn [mbind Completion_bind].
    intros (before & c' & after & acc' & -> & Hrun & Hthrow)%IH.
    exists (c :: before), c', after, acc'. split_and!; [done| |done].
    cbn [reduce]. by rewrite Hstep.
  - intros [= ->]. by exists [], c, cs, acc.
Qed.

Lemma by_language_Throw props e :
  by_language props = Throw e →
  e = MissingFilename (children props) ∧
  ∀ tag path, (tag, path) ∈ Spec.language_paths →
              className props ≠ Some ("language-" +:+ tag).
Proof.
  unfold by_language. intros Hthrow. split.
  - repeat case_decide; by simplify_eq.
  - intros tag path Hin Hcls. rewrite Hcls in Hthrow.
    unfold Spec.language_paths in Hin.
    repeat (apply elem_of_cons in Hin as [[= -> ->]|Hin]; [done|]).
    by apply elem_of_nil in Hin.
Qed.

(** The three ways a step throws. *)
Lemma callback_Throw result c e :
  callback result c = Throw e →
  (e = TypeError ∧ ¬ well_shaped c) ∨
  (∃ props, c = block props ∧ truthy (metastring props) = false ∧
            by_language props = Throw e) ∨
  (∃ props p, c = block props ∧ place props = Return p ∧
              e = DuplicatePath (filePath p) ∧
              is_Some (result !! filePath p)).
Proof.
  destruct c as [s|mdxType nested].
  { intros [= <-]. left. by split; [|intros []]. }
  destruct (decide (mdxType = Some "pre")) as [->|Hne];
    [|by rewrite callback_unrelated].
  destruct nested as [|s|props].
  - intros [= <-]. left. split; [done|]. by intros [? ?].
  - intros [= <-]. left. split; [done|]. by intros [? ?].
  - change (Element (Some "pre") (Code props)) with (block props).
    rewrite callback_block. destruct (place props) as [p|e'] eqn:Hp.
    + case_decide; [|done]. intros [= <-]. right. right. by exists props, p.
    + intros [= ->]. right. left. exists props. split; [done|].
      unfold place in Hp. by destruct (truthy (metastring props)).
Qed.

(** X4.  A call throws [e] exactly when some child's step throws [e]
    after every child before it was taken; the children after it play
    no part in the outcome. *)
Theorem X4_first_failing_child (cs : list Child) (e : Error) :
  createFileMap cs = Throw e ↔
  ∃ before c after acc,
    cs = before ++ c :: after ∧
    createFileMap before = Return acc ∧
    callback acc c = Throw e.
Proof.
  split.
  - apply reduce_Throw.
  - intros (before & c & after & acc & -> & Hrun & Hthrow).
    unfold createFileMap in *. rewrite reduce_app, Hrun.
    cbn [mbind Completion_bind reduce]. by rewrite Hthrow.
Qed.

(** X7.  An exception names its cause truthfully.  A duplicate-path
    error for a path means two children of the sequence resolve to that
    path; a missing-filename error carries the text of a block of the
    sequence that has no metadata line and a class outside the lookup;
    a [TypeError] means some child is a string or a [pre] that wraps
    no element. *)
Theorem X7_errors_name_their_cause (cs : list Child) (e : Error) :
  createFileMap cs = Throw e →
  match e with
  | DuplicatePath k =>
      ∃ before c after,
        cs = before ++ c :: after ∧ path_of c = Some k ∧
        k ∈ omap path_of before
  | MissingFilename text =>
      ∃ props,
        block props ∈ cs ∧ children props = text ∧
        truthy (metastring props) = false ∧
        ∀ tag path, (tag, path) ∈ Spec.language_paths →
                    className props ≠ Some ("language-" +:+ tag)
  | TypeError => ∃ c, c ∈ cs ∧ ¬ well_shaped c
  end.
Proof.
  intros (before & c & after & acc & -> & Hrun & Hthrow)%reduce_Throw.
  assert (c ∈ before ++ c :: after) as Hin.
  { apply elem_of_app. right. left. }
  apply callback_Throw in Hthrow
    as [[-> Hshape]|[(props & -> & Hmeta & Hlang)|(props & p & -> & Hp & -> & Hsome)]].
  - by exists c.
  - apply by_language_Throw in Hlang as [-> Hnone]. by exists props.
  - exists before, (block props), after. split_and!; [done| |].
    + unfold block, path_of. rewrite decide_True by done. by rewrite Hp.
    + apply reduce_Return in Hrun as (_ & _ & _ & Hdom & _).
      apply Hdom in Hsome as [Hsome|?]; [|done].
      rewrite lookup_empty in Hsome. by destruct Hsome.
Qed.

Lemma X7_witness :
  ∃ before c after,
    [block App_tsx; paragraph; block hello_world; block hello_world]
      = before ++ c :: after ∧
    path_of c = Some "/App.tsx" ∧ "/App.tsx" ∈ omap path_of before.
Proof.
  apply (X7_errors_name_their_cause
           [block App_tsx; paragraph; block hello_world; block hello_world]
           (DuplicatePath "/App.tsx")).
  vm_compute. reflexivity.
Defined.

(** ** What a returned mapping looks like *)

Lemma place_slash props p :
  place props = Return p → ∃ name, filePath p = "/" +:+ name.
Proof.
  unfold place, by_language, named.
  repeat case_match; intros [= <-]; cbn [filePath]; eauto.
Qed.

Lemma path_of_slash c k : path_of c = Some k → ∃ name, k = "/" +:+ name.
Proof.
  destruct c as [s|mdxType [|s|props]]; try done.
  unfold path_of. case_decide; [|done].
  destruct (place props) as [p|e] eqn:Hp; [|done].
  intros [= <-]. by eapply place_slash.
Qed.

(** X5.  Every key of a mapping that [createFileMap] returns starts with
    "/": no file name, whatever it is, becomes a key that an object has
    by inheritance, such as "constructor". *)
Theorem X5_keys_start_with_slash
    (cs : list Child) (m : gmap string SandpackFile) (k : string) :
  createFileMap cs = Return m → is_Some (m !! k) →
  ∃ name, k = "/" +:+ name.
Proof.
  intros (_ & _ & _ & Hdom & _)%reduce_Return Hk.
  apply Hdom in Hk as [Hk|Hk].
  - rewrite lookup_empty in Hk. by destruct Hk.
  - apply list_elem_of_omap in Hk as (c & _ & Hc). by eapply path_of_slash.
Qed.

Lemma X5_witness : ∃ name, "/constructor" = "/" +:+ name.
Proof.
  apply (X5_keys_start_with_slash
           [block {| className := None; metastring := Some "constructor hidden";
                     children := "export {};" |}]
           {[ "/constructor" := {| code := "export {};"; hidden := true;
                                   active := false |} ]}
           "/constructor").
  - vm_compute. reflexivity.
  - vm_compute. eauto.
Defined.

(** The paths of the blocks without a metadata line: as many as those
    blocks when every block resolves, among the paths of all blocks, and
    among the three paths of the lookup. *)
Lemma unnamed_paths (cs : list Child) :
  Forall accepted cs →
  List.length (omap path_of (List.filter unnamed cs))
    = List.length (List.filter unnamed cs) ∧
  (∀ k, k ∈ omap path_of (List.filter unnamed cs) →
        k ∈ omap path_of cs ∧ k ∈ ["/App.js"; "/App.tsx"; "/styles.css"]).
Proof.
  induction 1 as [|c cs Hc _ [IHlen IHin]]; cbn [List.filter].
  { split; [done|]. by intros ? ?%elem_of_nil. }
  destruct (unnamed c) eqn:Hun.
  - destruct c as [s|mdxType [|s|props]]; try done.
    cbn [unnamed] in Hun.
    apply andb_true_iff in Hun as [->%bool_decide_eq_true Hmeta%negb_true_iff].
    destruct Hc as [Hc|(props' & p & [= <-] & Hp)]; [done|].
    assert (path_of (Element (Some "pre") (Code props)) = Some (filePath p))
      as Hpath.
    { unfold path_of. rewrite decide_True by done. by rewrite Hp. }
    cbn [omap list_omap]. rewrite Hpath. cbn [List.length]. split; [by f_equal|].
    intros k [->|Hin]%elem_of_cons.
    + split; [left|]. rewrite place_by_language in Hp by done.
      unfold by_language in Hp. repeat case_decide; simplify_eq; cbn [filePath];
        first [by left | right; by left | right; right; by left].
    + destruct (IHin k Hin). split; [by right|done].
  - split; [done|]. intros k Hin. destruct (IHin k Hin) as [Hcs Hthree].
    split; [|done]. cbn [omap list_omap].
    destruct (path_of c); [by right|done].
Qed.

Lemma unnamed_paths_NoDup (cs : list Child) :
  Forall accepted cs → NoDup (omap path_of cs) →
  NoDup (omap path_of (List.filter unnamed cs)).
Proof.
  induction 1 as [|c cs Hc Hcs IH]; cbn [List.filter]; [done|].
  cbn [omap list_omap].
  destruct (unnamed c); cbn [omap list_omap]; destruct (path_of c) as [k|].
  - intros [Hnew Hnodup]%NoDup_cons. constructor; [|by apply IH].
    intros Hin. by apply (unnamed_paths cs Hcs) in Hin as [? _].
  - apply IH.
  - intros [_ Hnodup]%NoDup_cons. by apply IH.
  - apply IH.
Qed.

(** X6.  A sequence on which [createFileMap] returns has at most three
    code blocks without a metadata line: such blocks can only be placed
    at "/App.js", "/App.tsx" and "/styles.css", one block each. *)
Theorem X6_at_most_three_unnamed (cs : list Child) (m : gmap string SandpackFile) :
  createFileMap cs = Return m →
  List.length (List.filter unnamed cs) ≤ 3.
Proof.
  intros (Hall & Hnodup & _)%createFileMap_Return_iff.
  destruct (unnamed_paths cs Hall) as [<- Hin].
  change 3 with (List.length ["/App.js"; "/App.tsx"; "/styles.css"]).
  apply submseteq_length, NoDup_submseteq.
  - by apply unnamed_paths_NoDup.
  - intros k Hk. by apply Hin.
Qed.

Lemma X6_witness :
  List.length
    (List.filter unnamed
       [block {| className := Some "language-js"; metastring := None;
                 children := "export default 1;" |};
        block hello_world;
        block {| className := Some "language-css"; metastring := Some "";
                 children := "body { margin: 0 }" |};
        block Index_tsx]) ≤ 3.
Proof.
  eapply (X6_at_most_three_unnamed _ _).
  vm_compute. reflexivity.
Defined.

(** ** The component and the component mapping *)

(** X13.  [SandpackEditor] builds its [<Sandpack>] exactly when every
    child is a skipped element or a block that resolves and the blocks'
    paths are pairwise distinct; the element then gets the template
    "react-ts", the blocks' files, the navigator, and the dependencies it
    was given, or none when the prop was left out.  Otherwise the
    component throws what [createFileMap] throws. *)
Theorem X13_SandpackEditor_renders_exactly_when
    (children : list Child) (dependencies : option (gmap string string)) :
  (∀ props,
     SandpackEditor children dependencies = Return props ↔
     Forall accepted children ∧ NoDup (omap path_of children) ∧
     props = {| template := "react-ts";
                files := list_to_map (omap entry_of children);
                options_showNavigator := true;
                customSetup_dependencies := default ∅ dependencies |}) ∧
  (∀ e, SandpackEditor children dependencies = Throw e ↔
        createFileMap children = Throw e).
Proof.
  unfold SandpackEditor. cbn zeta. split.
  - intros props. destruct (createFileMap children) as [m|e] eqn:Hm;
      cbn [mbind Completion_bind].
    + apply createFileMap_Return_iff in Hm as (Hall & Hnodup & ->).
      split; [by intros [= <-]|by intros (_ & _ & ->)].
    + split; [done|]. intros (Hall & Hnodup & _).
      assert (createFileMap children
              = Return (list_to_map (omap entry_of children))) as Hret
        by by apply createFileMap_Return_iff.
      congruence.
  - intros e. destruct (createFileMap children) as [m|e'];
      cbn [mbind Completion_bind].
    + split; intros [=].
    + split; by intros [= ->].
Qed.

(** X14.  The exported component mapping resolves "SandpackSnippet" to
    the component, also when the original mapping has an entry of that
    name; every other tag resolves as in the original, so no component
    of the original is lost and no tag other than "SandpackSnippet" is
    added. *)
Theorem X14_theme_extends_original {Component : Type}
    (MDXComponents : gmap string Component) (SandpackSnippet : Component) :
  theme_MDXComponents MDXComponents SandpackSnippet !! "SandpackSnippet"
    = Some SandpackSnippet ∧
  (∀ tag, tag ≠ "SandpackSnippet" →
          theme_MDXComponents MDXComponents SandpackSnippet !! tag
          = MDXComponents !! tag) ∧
  dom (theme_MDXComponents MDXComponents SandpackSnippet)
    = {["SandpackSnippet"]} ∪ dom MDXComponents ∧
  (MDXComponents ⊆ theme_MDXComponents MDXComponents SandpackSnippet ↔
   MDXComponents !! "SandpackSnippet" = None ∨
   MDXComponents !! "SandpackSnippet" = Some SandpackSnippet).
Proof.
  unfold theme_MDXComponents. split_and!.
  - apply lookup_insert_eq.
  - intros tag Hne. by apply lookup_insert_ne.
  - apply dom_insert_L.
  - split.
    + intros Hsub. destruct (MDXComponents !! "SandpackSnippet") as [old|] eqn:Hold;
        [|by left].
      right. eapply lookup_weaken in Hold; [|done].
      by rewrite lookup_insert_eq in Hold.
    + intros [Hnone|Hsame].
      * by apply insert_subseteq.
      * by rewrite insert_id.
Qed.

(** ** The hooks *)

Lemma useRouteMatch_echo (matchPath : string → string → option Router.PathMatch)
    (patterns : list string) (pathname : string) :
  (∀ p x m, matchPath p x = Some m → Router.path (Router.pattern m) = p) →
  (Router.useRouteMatch matchPath patterns pathname ∈ patterns ∧
   is_Some (matchPath (Router.useRouteMatch matchPath patterns pathname) pathname)) ∨
  (Router.useRouteMatch matchPath patterns pathname = "tab1" ∧
   ∀ p, p ∈ patterns → matchPath p pathname = None).
Proof.
  intros Hecho. induction patterns as [|p patterns IH]; cbn [Router.useRouteMatch].
  - right. split; [done|]. by intros ? ?%elem_of_nil.
  - destruct (matchPath p pathname) as [m|] eqn:Hm.
    + left. rewrite (Hecho _ _ _ Hm). split; [left|]. by rewrite Hm.
    + destruct IH as [[Hin Hsome]|[Hdefault Hnone]].
      * left. split; [by right|done].
      * right. split; [done|]. by intros p' [->|?]%elem_of_cons; [|apply Hnone].
Qed.

(** X8.  [useRouteMatch] answers with the first pattern that matches:
    when no pattern before it matches, the answer is the path of that
    pattern's match, whatever patterns follow; when no pattern matches,
    an empty list included, the answer is "tab1". *)
Theorem X8_useRouteMatch_first_match
    (matchPath : string → string → option Router.PathMatch)
    (patterns : list string) (pathname : string) :
  (∀ before pattern after m,
     patterns = before ++ pattern :: after →
     (∀ p, p ∈ before → matchPath p pathname = None) →
     matchPath pattern pathname = Some m →
     Router.useRouteMatch matchPath patterns pathname
       = Router.path (Router.pattern m)) ∧
  ((∀ p, p ∈ patterns → matchPath p pathname = None) →
   Router.useRouteMatch matchPath patterns pathname = "tab1").
Proof.
  split.
  - intros before pattern after m -> Hbefore Hm.
    induction before as [|p before IH]; cbn [app Router.useRouteMatch].
    + by rewrite Hm.
    + rewrite (Hbefore p) by left. apply IH. intros p' Hin. apply Hbefore.
      by right.
  - induction patterns as [|p patterns IH]; intros Hnone;
      cbn [Router.useRouteMatch]; [done|].
    rewrite (Hnone p) by left. apply IH. intros p' Hin. apply Hnone. by right.
Qed.

Lemma X8_witness :
  Router.useRouteMatch exact_match (["tab1"] ++ "tab2" :: ["tab3"]) "/tab2"
  = Router.path (Router.pattern
                   {| Router.pattern := {| Router.path := "tab2" |} |}).
Proof.
  refine (proj1 (X8_useRouteMatch_first_match exact_match
                   (["tab1"] ++ "tab2" :: ["tab3"]) "/tab2")
            ["tab1"] "tab2" ["tab3"] _ eq_refl _ _).
  - intros p Hp. apply (Forall_forall (λ p, exact_match p "/tab2" = None) ["tab1"]);
      [|done].
    repeat constructor.
  - reflexivity.
Defined.

(** X9.  When a match carries the pattern it was asked for, as
    react-router's do, the value the last [TabbedLayout] gives [<Tabs>]
    is always the path of one of the three tabs: the path of the first
    tab that matches the location, and "tab1", the first tab's path,
    when none does. *)
Theorem X9_selected_tab_is_a_tab
    (matchPath : string → string → option Router.PathMatch) (pathname : string) :
  (∀ p x m, matchPath p x = Some m → Router.path (Router.pattern m) = p) →
  (∃ key tab, (key, tab) ∈ Tabs.tabs ∧
              Tabs.path tab = Tabs.selectedTab matchPath pathname) ∧
  (is_Some (matchPath (Tabs.selectedTab matchPath pathname) pathname) ∨
   (Tabs.selectedTab matchPath pathname = "tab1" ∧
    ∀ p, p ∈ Tabs.tabPaths → matchPath p pathname = None)).
Proof.
  intros Hecho. unfold Tabs.selectedTab.
  destruct (useRouteMatch_echo matchPath Tabs.tabPaths pathname Hecho)
    as [[Hin Hsome]|[Hdefault Hnone]].
  - split; [|by left].
    apply list_elem_of_fmap in Hin as (tab & -> & Hin).
    apply list_elem_of_fmap in Hin as ([key tab'] & -> & Hin).
    by exists key, tab'.
  - split; [|by right]. rewrite Hdefault.
    eexists "TAB1", _. split; [left|done].
Qed.

Lemma X9_witness :
  (∃ key tab, (key, tab) ∈ Tabs.tabs ∧
              Tabs.path tab = Tabs.selectedTab exact_match "/tab3") ∧
  (is_Some (exact_match (Tabs.selectedTab exact_match "/tab3") "/tab3") ∨
   (Tabs.selectedTab exact_match "/tab3" = "tab1" ∧
    ∀ p, p ∈ Tabs.tabPaths → exact_match p "/tab3" = None)).
Proof.
  apply (X9_selected_tab_is_a_tab exact_match "/tab3").
  intros p x m. unfold exact_match. case_decide; [|done]. by intros [= <-].
Defined.

(** X10.  The two hooks of the post agree.  When a match carries the
    pattern it was asked for and, for each tab, [useMatch] on the tab's
    path after a slash matches exactly when [matchPath] on the tab's
    path matches the location, [useSelectedTab] gives what
    [useRouteMatch] gives on the tabs' paths. *)
Theorem X10_hooks_agree
    (matchPath : string → string → option Router.PathMatch)
    (useMatch : string → option Router.PathMatch) (pathname : string) :
  (∀ p x m, matchPath p x = Some m → Router.path (Router.pattern m) = p) →
  (∀ tab, tab ∈ Tabs.tabPaths →
          is_Some (useMatch ("/" +:+ tab)) ↔ is_Some (matchPath tab pathname)) →
  Router.useSelectedTab useMatch = Tabs.selectedTab matchPath pathname.
Proof.
  intros Hecho Hlink. unfold Router.useSelectedTab, Tabs.selectedTab. cbn zeta.
  assert (∀ tab, tab ∈ Tabs.tabPaths →
            match matchPath tab pathname with
            | Some m => Router.path (Router.pattern m) = tab ∧
                        is_Some (useMatch ("/" +:+ tab))
            | None => ¬ is_Some (useMatch ("/" +:+ tab))
            end) as Hcase.
  { intros tab Hin. specialize (Hlink tab Hin).
    destruct (matchPath tab pathname) as [m|] eqn:Hm.
    - split; [by eapply Hecho|]. by apply Hlink.
    - intros Hsome%Hlink. by destruct Hsome. }
  pose proof (Hcase "tab1" ltac:(by left)) as H1.
  pose proof (Hcase "tab2" ltac:(right; by left)) as H2.
  pose proof (Hcase "tab3" ltac:(right; right; by left)) as H3.
  change Tabs.tabPaths with ["tab1"; "tab2"; "tab3"].
  cbn [Router.useRouteMatch].
  change ("/" +:+ "tab1") with "/tab1" in H1.
  change ("/" +:+ "tab2") with "/tab2" in H2.
  change ("/" +:+ "tab3") with "/tab3" in H3.
  destruct (matchPath "tab1" pathname) as [m1|].
  { destruct H1 as [-> H1]. by rewrite decide_True. }
  rewrite (decide_False (P:=is_Some (useMatch "/tab1"))) by done.
  destruct (matchPath "tab2" pathname) as [m2|].
  { destruct H2 as [-> H2]. by rewrite decide_True. }
  rewrite (decide_False (P:=is_Some (useMatch "/tab2"))) by done.
  destruct (matchPath "tab3" pathname) as [m3|].
  { destruct H3 as [-> H3]. by rewrite decide_True. }
  by rewrite (decide_False (P:=is_Some (useMatch "/tab3"))).
Qed.

Lemma X10_witness :
  Router.useSelectedTab (λ p, exact_match p "//tab2")
  = Tabs.selectedTab exact_match "/tab2".
Proof.
  apply (X10_hooks_agree exact_match (λ p, exact_match p "//tab2") "/tab2").
  - intros p x m. unfold exact_match. case_decide; [|done]. by intros [= <-].
  - intros tab Hin.
    apply (Forall_forall
             (λ tab, is_Some (exact_match ("/" +:+ tab) "//tab2")
                     ↔ is_Some (exact_match tab "/tab2")) Tabs.tabPaths);
      [|done].
    apply Forall_cons_2; [vm_compute; split; intros [? [=]]|].
    apply Forall_cons_2; [vm_compute; split; eauto|].
    apply Forall_cons_2; [vm_compute; split; intros [? [=]]|].
    apply Forall_nil_2.
Defined.

(** X11.  The first [TabbedLayout] renders, for the path of a tab, the
    component the table [tabs] gives that tab; for any other parameter,
    a missing one included, it renders the first tab's component, while
    the value it gives [<Tabs>] is no tab's. *)
Theorem X11_content_agrees_with_table (selectedTab : option string) :
  (∀ key tab, (key, tab) ∈ Tabs.tabs → selectedTab = Some (Tabs.path tab) →
              Tabs.TabContent selectedTab = Tabs.component tab) ∧
  ((∀ tab, tab ∈ Tabs.tabPaths → selectedTab ≠ Some tab) →
   Tabs.TabContent selectedTab = Tabs.Tab1Content).
Proof.
  unfold Tabs.TabContent. cbn zeta. split.
  - intros key tab Hin ->. unfold Tabs.tabs in Hin.
    repeat (apply elem_of_cons in Hin as [[= -> ->]|Hin]; [done|]).
    by apply elem_of_nil in Hin.
  - intros Hnone.
    rewrite !decide_False; [done|..].
    + apply Hnone. right; left.
    + apply Hnone. right; right; left.
Qed.

Lemma X11_witness :
  Tabs.TabContent (Some "tab3") = Tabs.component
    {| Tabs.label := "Tab 3"; Tabs.path := "tab3";
       Tabs.component := Tabs.Tab3Content |}.
Proof.
  refine (proj1 (X11_content_agrees_with_table (Some "tab3")) "TAB3"
            {| Tabs.label := "Tab 3"; Tabs.path := "tab3";
               Tabs.component := Tabs.Tab3Content |} _ eq_refl).
  right; right; left.
Defined.

(** ** The language of a named block *)

(** X12.  The language of a fence plays no part once the metadata line
    names the file: changing the class of a named block changes neither
    the mapping nor the error of [createFileMap] on any sequence that
    contains the block.  Nothing relates the language to the extension
    of the name. *)
Theorem X12_language_of_a_named_block
    (cls cls' : option string) (meta text : string) (before after : list Child) :
  meta ≠ "" →
  createFileMap
    (before ++ block {| className := cls; metastring := Some meta;
                        children := text |} :: after)
  = createFileMap
      (before ++ block {| className := cls'; metastring := Some meta;
                          children := text |} :: after).
Proof.
  intros Hmeta%truthy_Some. apply createFileMap_same_place; [|done].
  by rewrite !place_named.
Qed.

Lemma X12_witness :
  createFileMap
    ([block Index_tsx] ++
     block {| className := Some "language-css"; metastring := Some "App.tsx";
              children := "export default 1;" |} :: [paragraph])
  = createFileMap
      ([block Index_tsx] ++
       block {| className := None; metastring := Some "App.tsx";
                children := "export default 1;" |} :: [paragraph]).
Proof.
  apply (X12_language_of_a_named_block (Some "language-css") None "App.tsx"
           "export default 1;" [block Index_tsx] [paragraph]).
  discriminate.
Defined.
